(** * wishengine: the Telegram bot handlers of [src/bot.py]

    A shallow embedding of the two handlers that carry the decision logic of
    [bot.py] -- [answer_if_user_responds_to_claude] and [fetch] -- together
    with the Python values, exceptions and external calls they touch.

    The handlers talk to four collaborators that live outside [bot.py]:
    the Telegram transport ([update.message.reply_text]), the [Parser]
    class, the [BotStates] enumeration and the [MessageAPIClient] instance
    [api].  Every call to one of them is recorded as an [Event]; what the
    call gives back (a value, or a raised exception) is supplied by a
    [World], so a handler is a function from a world and an update to the
    sequence of calls it made plus the way it ended. *)

From Stdlib Require Import String Ascii List Bool Arith Lia DecimalString.
Import ListNotations.
Local Open Scope list_scope.
Local Open Scope string_scope.

Set Implicit Arguments.
Set Warnings "-register-all,-abstract-large-number".

(* ===================================================================== *)
(** ** The [BotStates] enumeration ([states.py], imported by [bot.py])    *)
(* ===================================================================== *)

(** Modelled from the spec: [states.py] is not part of the sources; the
    members are the closed set the specification lists, of which [bot.py]
    names [POSITIVE] and [NEGATIVE]. *)
Inductive BotStates : Type := POSITIVE | NEGATIVE | UNKNOWN.

Definition BotStates_eqb (a b : BotStates) : bool :=
  match a, b with
  | POSITIVE, POSITIVE | NEGATIVE, NEGATIVE | UNKNOWN, UNKNOWN => true
  | _, _ => false
  end.

Definition all_states : list BotStates := [POSITIVE; NEGATIVE; UNKNOWN].

(* ===================================================================== *)
(** ** Python values, truthiness, exceptions                              *)
(* ===================================================================== *)

Module Py.

(** The values the handlers inspect: what [api.get_messages] and
    [api.store_message] return (decoded JSON, [None], a flag) and what
    [Parser.get_state] returns (an enumeration member or a string). *)
Inductive value : Type :=
| VNone
| VBool (b : bool)
| VInt (n : nat)
| VStr (s : string)
| VList (items : list value)
| VDict (entries : list (string * value))
| VMember (m : BotStates).

(** [bool(v)], as used by [not v]. *)
Definition truthy (v : value) : bool :=
  match v with
  | VNone => false
  | VBool b => b
  | VInt n => negb (Nat.eqb n 0)
  | VStr s => negb (String.eqb s "")
  | VList items => match items with [] => false | _ => true end
  | VDict entries => match entries with [] => false | _ => true end
  | VMember _ => true
  end.

(** [type(v) is dict] *)
Definition is_dict (v : value) : bool :=
  match v with VDict _ => true | _ => false end.

Fixpoint assoc (k : string) (entries : list (string * value)) : option value :=
  match entries with
  | [] => None
  | (k', v) :: rest => if String.eqb k' k then Some v else assoc k rest
  end.

(** [k in v.keys()], for a [v] already known to be a dict. *)
Definition has_key (k : string) (v : value) : bool :=
  match v with
  | VDict entries => match assoc k entries with Some _ => true | None => false end
  | _ => false
  end.

(** An instance of (a subclass of) [Exception]: its class and its [args]
    tuple.  [KeyboardInterrupt], [SystemExit] and the other signals that
    derive from [BaseException] only are not failures of a call and are
    not modelled. *)
Record exn : Type := Exception { exn_class : string; args : list value }.

Definition IndexError : exn :=
  Exception "IndexError" [VStr "tuple index out of range"].
Definition KeyError (k : string) : exn :=
  Exception "KeyError" [VStr k].
Definition TypeError (what : string) : exn :=
  Exception "TypeError" [VStr what].
Definition AttributeError (what : string) : exn :=
  Exception "AttributeError" [VStr what].

(** How a call ends: it raises, or it returns. *)
Definition outcome (A : Type) : Type := (exn + A)%type.
Definition Raised {A} (e : exn) : outcome A := inl e.
Definition Returned {A} (a : A) : outcome A := inr a.

(** What [str()] and [repr()] give on the values whose rendering depends
    on code outside [bot.py]: [str(member)] is decided by the [BotStates]
    class, the rest by the interpreter.  On a [str] object, [str()] is the
    identity and needs no parameter. *)
Class Rendering : Type := {
  member_value : BotStates -> string;       (* BotStates.X.value *)
  member_str   : BotStates -> string;       (* str(BotStates.X)  *)
  str_object   : value -> string;           (* str(v), v not a str or member *)
  repr         : value -> string            (* repr(v) *)
}.

Definition str `{Rendering} (v : value) : string :=
  match v with
  | VStr s => s
  | VMember m => member_str m
  | _ => str_object v
  end.

(** [str(x)] for an [Optional[str]] attribute such as [message.text]. *)
Definition str_opt (x : option string) : string :=
  match x with Some s => s | None => "None" end.

(** [str(i)] for a non-negative [int]. *)
Definition str_nat (i : nat) : string :=
  NilZero.string_of_uint (Nat.to_uint i).

(** [sep.join(parts)] *)
Fixpoint join (sep : string) (parts : list string) : string :=
  match parts with
  | [] => ""
  | [p] => p
  | p :: rest => p ++ sep ++ join sep rest
  end.

(** A [str] is held as the bytes of its UTF-8 encoding.  A byte of the form
    [10xxxxxx] continues the character that the last byte of another form
    began. *)
Definition is_continuation (c : ascii) : bool :=
  Nat.leb 128 (nat_of_ascii c) && Nat.ltb (nat_of_ascii c) 192.

(** The continuation bytes at the head of [s]. *)
Fixpoint continuation_prefix (s : string) : string :=
  match s with
  | EmptyString => EmptyString
  | String c rest =>
      if is_continuation c then String c (continuation_prefix rest)
      else EmptyString
  end.

(** One-character strings of [s], the items of iterating over a [str]: one
    item per character (code point), that is, per byte that begins one,
    taken with the continuation bytes that follow it. *)
Fixpoint chars (s : string) : list value :=
  match s with
  | EmptyString => []
  | String c rest =>
      if is_continuation c then chars rest
      else VStr (String c (continuation_prefix rest)) :: chars rest
  end.

(** [len(s)]: the number of characters of [s], counted on its bytes. *)
Fixpoint code_points (s : string) : nat :=
  match s with
  | EmptyString => 0
  | String c rest =>
      if is_continuation c then code_points rest else S (code_points rest)
  end.

End Py.

Import Py.

(* ===================================================================== *)
(** ** Calls to the collaborators, and the handler monad                  *)
(* ===================================================================== *)

Inductive Level : Type := DEBUG | INFO | ERROR.

(** One entry per call a handler makes to something outside itself. *)
Inductive Event : Type :=
| Log (lvl : Level) (msg : string)                  (* logger.debug/info/error *)
| NewParser                                         (* Parser(debug=..., logger=...) *)
| Process (prompt text : option string)             (* p.process(prompt, text) *)
| ReplyText (text : string)                         (* update.message.reply_text(text) *)
| StoreMessage (text state : string)                (* api.store_message(text, state) *)
| GetMessages (limit : nat) (state : string).       (* api.get_messages({...}) *)

(** A run of handler code: the calls made so far, in order, and either the
    exception that is propagating or the value computed. *)
Definition Run (A : Type) : Type := (list Event * outcome A)%type.

Definition ret {A} (a : A) : Run A := ([], Returned a).

Definition bind {A B} (m : Run A) (k : A -> Run B) : Run B :=
  match m with
  | (t, inl e) => (t, inl e)
  | (t, inr a) => let (t', r) := k a in ((t ++ t')%list, r)
  end.

Definition raise {A} (e : exn) : Run A := ([], Raised e).

(** [try: body except Exception as e: handler(e)] *)
Definition try_except {A} (body : Run A) (handler : exn -> Run A) : Run A :=
  match body with
  | (t, inl e) => let (t', r) := handler e in ((t ++ t')%list, r)
  | (t, inr a) => (t, inr a)
  end.

(** A call to a collaborator: it is recorded, and ends the way the world
    says. *)
Definition call {A} (ev : Event) (o : outcome A) : Run A := ([ev], o).

(** A logger call; logging never raises. *)
Definition log (lvl : Level) (msg : string) : Run unit :=
  call (Log lvl msg) (Returned tt).

Definition trace {A} (m : Run A) : list Event := fst m.
Definition result {A} (m : Run A) : outcome A := snd m.

Declare Scope run_scope.
Delimit Scope run_scope with run.
Notation "x <- m ;; k" := (bind m (fun x => k))
  (at level 61, m at next level, right associativity) : run_scope.
Notation "m ;; k" := (bind m (fun _ => k))
  (at level 61, right associativity) : run_scope.
Local Open Scope run_scope.

(** [seq[i]] on a tuple or list. *)
Definition index (items : list value) (i : nat) : Run value :=
  match nth_error items i with
  | Some v => ret v
  | None => raise IndexError
  end.

(** [d[k]] *)
Definition getitem (d : value) (k : string) : Run value :=
  match d with
  | VDict entries =>
      match assoc k entries with
      | Some v => ret v
      | None => raise (KeyError k)
      end
  | _ => raise (TypeError "object is not subscriptable")
  end.

(** The items [enumerate(v)] runs over: a list gives its items, a dict its
    keys, a string its characters; anything else is not iterable. *)
Definition iterate (v : value) : Run (list value) :=
  match v with
  | VList items => ret items
  | VDict entries => ret (map (fun kv => VStr (fst kv)) entries)
  | VStr s => ret (chars s)
  | _ => raise (TypeError "object is not iterable")
  end.

(* ===================================================================== *)
(** ** The objects [bot.py] receives and the collaborators it calls       *)
(* ===================================================================== *)

(** [telegram.Message], as far as the handlers read it: [message.text] and
    [message.reply_to_message], itself a message or [None]. *)
Inductive Message : Type :=
| MkMessage (text_ : option string) (reply_to_message_ : option Message).

Definition text (m : Message) : option string :=
  match m with MkMessage t _ => t end.

Definition reply_to_message (m : Message) : option Message :=
  match m with MkMessage _ r => r end.

(** [telegram.Update]: [update.message] is [None] for updates that carry no
    message. *)
Record Update : Type := { message : option Message }.

(** The [Parser] object after [p.process(prompt, text)], seen through the
    three accessors [bot.py] calls.  [parser.py] is not part of the
    sources, so the fields are whatever the world's parser computes: the
    state is any value ([bot.py] applies [str()] to it), the two texts are
    strings.  Constructing the parser, [process] and the accessors are
    taken not to raise (section 4.2 of the specification: an unrelated
    reply resolves to UNKNOWN rather than raise). *)
Record Parser : Type := {
  get_state : value;
  get_text : string;
  get_text_clean : string
}.

(** What the collaborators do during one run of a handler.  Each field
    answers one call site of [bot.py]; no call site is reached twice in a
    run. *)
Record World : Type := {
  process : option string -> option string -> Parser;  (* line 114 *)
  reply_text : string -> outcome unit;                 (* lines 83, 95, 122 *)
  store_message : string -> string -> outcome value;   (* line 129 *)
  messages_yes : outcome value;                        (* line 78 *)
  messages_no : outcome value                          (* line 79 *)
}.

Definition MY_BOT_NAME : string := "wishengine".

Definition nl : string := String (ascii_of_nat 10) EmptyString.

(* ===================================================================== *)
(** ** [bot.py]: the handlers                                             *)
(* ===================================================================== *)

Section Handlers.

Context `{R : Rendering}.
Variable w : World.

(** [update.message.reply_text(t)]: on an update without a message the
    attribute lookup on [None] raises before anything is sent. *)
Definition update_message_reply_text (update : Update) (t : string) : Run unit :=
  match message update with
  | Some _ => call (ReplyText t) (reply_text w t)
  | None => raise (AttributeError "'NoneType' object has no attribute 'reply_text'")
  end.

(** Lines 97-134. *)
Definition answer_if_user_responds_to_claude (update : Update) : Run unit :=
  match message update with
  | None =>
      log DEBUG "Ignoring latest message due to no content"
  | Some message =>
      match reply_to_message message with
      | None =>
          log DEBUG ("Ignoring latest message due to not a reply '"
                     ++ str_opt (text message) ++ "'")
      | Some original =>
          let prompt := text original in
          log DEBUG ("Latest message was a reply to prompt '"
                     ++ str_opt prompt ++ "'") ;;
          call NewParser (Returned tt) ;;
          p <- call (Process prompt (text message))
                    (Returned (process w prompt (text message))) ;;
          let response := get_text p in
          (if negb (truthy (VStr response))
           then log DEBUG ("Doing nothing. Response was not generated for user input '"
                           ++ str_opt (text message) ++ "'")
           else ret tt) ;;
          update_message_reply_text update response ;;
          let state := str (get_state p) in
          let text_clean := get_text_clean p in
          let target := "[" ++ state ++ "]: " ++ text_clean in
          try_except
            (status <- call (StoreMessage text_clean state)
                            (store_message w text_clean state) ;;
             (if negb (truthy status)
              then raise (Exception "Exception"
                     [VStr ("POST request to store " ++ target
                            ++ " did not return valid status")])
              else ret tt) ;;
             log INFO ("Storage of " ++ target ++ " returned status="
                       ++ repr status))
            (fun e =>
               arg0 <- index (args e) 0 ;;
               log ERROR ("Failed to store " ++ target ++ " - " ++ str arg0))
      end
  end.

(** Line 90: ['[{}] {}'.format(state, m['text'])]. *)
Definition format_record (state : string) (t : value) : string :=
  "[" ++ state ++ "] " ++ str t.

(** Line 92. *)
Definition skip_message (state : string) (i : nat) (m : value) : string :=
  "Skipping message_" ++ state ++ "_" ++ str_nat i
  ++ " due to invalid format: " ++ str m.

(** Lines 88-92: the loop over [enumerate(messages)], from index [i] on. *)
Fixpoint for_each_message (state : string) (i : nat) (items : list value)
    (print_me : list string) : Run (list string) :=
  match items with
  | [] => ret print_me
  | m :: rest =>
      if is_dict m && has_key "text" m then
        t <- getitem m "text" ;;
        for_each_message state (S i) rest (print_me ++ [format_record state t])%list
      else
        log ERROR (skip_message state i m) ;;
        for_each_message state (S i) rest print_me
  end.

(** Lines 87-92: the loop over [messages_list]. *)
Fixpoint for_each_state (messages_list : list (string * value))
    (print_me : list string) : Run (list string) :=
  match messages_list with
  | [] => ret print_me
  | (state, messages) :: rest =>
      items <- iterate messages ;;
      print_me' <- for_each_message state 0 items print_me ;;
      for_each_state rest print_me'
  end.

(** Line 94: [[f'Message #{i}:\n{m}' for i,m in enumerate(print_me)]],
    from index [i] on. *)
Fixpoint number_lines (i : nat) (print_me : list string) : list string :=
  match print_me with
  | [] => []
  | m :: rest =>
      ("Message #" ++ str_nat i ++ ":" ++ nl ++ m) :: number_lines (S i) rest
  end.

Definition no_messages_found : string :=
  "No messages found from me (" ++ MY_BOT_NAME ++ ")".

(** Lines 80-81, given what the two [get_messages] calls returned. *)
Definition build_messages_list (yes no : value) : list (string * value) :=
  [(member_value POSITIVE, yes); (member_value NEGATIVE, no)].

(** Lines 76-95. *)
Definition fetch (update : Update) : Run unit :=
  messages_yes <- call (GetMessages 1 (member_value POSITIVE)) (messages_yes w) ;;
  messages_no <- call (GetMessages 1 (member_value NEGATIVE)) (messages_no w) ;;
  let messages_list := build_messages_list messages_yes messages_no in
  if match messages_list with [] => true | _ => false end then
    update_message_reply_text update no_messages_found
  else
    print_me <- for_each_state messages_list [] ;;
    let lines := number_lines 0 print_me in
    update_message_reply_text update (join (nl ++ nl) lines).

End Handlers.

(* ===================================================================== *)
(** ** Reading a run: what was sent, stored, logged                       *)
(* ===================================================================== *)

(** The texts handed to [update.message.reply_text], in order. *)
Fixpoint replies (tr : list Event) : list string :=
  match tr with
  | [] => []
  | ReplyText t :: rest => t :: replies rest
  | _ :: rest => replies rest
  end.

(** The [(text, state)] pairs handed to [api.store_message], in order. *)
Fixpoint stores (tr : list Event) : list (string * string) :=
  match tr with
  | [] => []
  | StoreMessage t s :: rest => (t, s) :: stores rest
  | _ :: rest => stores rest
  end.

(** The state filters handed to [api.get_messages], in order. *)
Fixpoint filters (tr : list Event) : list string :=
  match tr with
  | [] => []
  | GetMessages _ s :: rest => s :: filters rest
  | _ :: rest => filters rest
  end.

(** How many [Parser] objects were constructed. *)
Fixpoint parsers (tr : list Event) : nat :=
  match tr with
  | [] => 0
  | NewParser :: rest => S (parsers rest)
  | _ :: rest => parsers rest
  end.

(** The messages logged at level ERROR, in order. *)
Fixpoint errors (tr : list Event) : list string :=
  match tr with
  | [] => []
  | Log ERROR msg :: rest => msg :: errors rest
  | _ :: rest => errors rest
  end.

(** The same world with another [api.store_message]. *)
Definition with_store (w : World) (f : string -> string -> outcome value) : World :=
  {| process := process w; reply_text := reply_text w; store_message := f;
     messages_yes := messages_yes w; messages_no := messages_no w |}.

(** The same world with other answers to the two [api.get_messages]
    calls. *)
Definition with_messages (w : World) (yes no : outcome value) : World :=
  {| process := process w; reply_text := reply_text w;
     store_message := store_message w;
     messages_yes := yes; messages_no := no |}.

(** Lines 89-92 seen from outside the loop: which records are displayed,
    with what line, and which are reported. *)
Definition conforming (m : value) : bool := is_dict m && has_key "text" m.

Definition text_of (m : value) : value :=
  match m with
  | VDict entries => match assoc "text" entries with Some v => v | None => VNone end
  | _ => VNone
  end.

Definition shown `{Rendering} (state : string) (items : list value) : list string :=
  map (fun m => format_record state (text_of m)) (filter conforming items).

Fixpoint skipped `{Rendering} (state : string) (i : nat) (items : list value) : list Event :=
  match items with
  | [] => []
  | m :: rest =>
      if conforming m then skipped state (S i) rest
      else Log ERROR (skip_message state i m) :: skipped state (S i) rest
  end.

(** The calls of lines 110-122, up to and including [reply_text]. *)
Definition respond_trace (w : World) (m original : Message) : list Event :=
  let p := process w (text original) (text m) in
  ([Log DEBUG ("Latest message was a reply to prompt '"
               ++ str_opt (text original) ++ "'");
    NewParser;
    Process (text original) (text m)]
   ++ (if negb (truthy (VStr (get_text p)))
       then [Log DEBUG ("Doing nothing. Response was not generated for user input '"
                        ++ str_opt (text m) ++ "'")]
       else [])
   ++ [ReplyText (get_text p)])%list.

(** The store step, lines 124-134, on its own. *)
Definition store_step `{Rendering} (w : World) (p : Parser) : Run unit :=
  let state := str (get_state p) in
  let text_clean := get_text_clean p in
  let target := "[" ++ state ++ "]: " ++ text_clean in
  try_except
    (status <- call (StoreMessage text_clean state)
                    (store_message w text_clean state) ;;
     (if negb (truthy status)
      then raise (Exception "Exception"
             [VStr ("POST request to store " ++ target
                    ++ " did not return valid status")])
      else ret tt) ;;
     log INFO ("Storage of " ++ target ++ " returned status=" ++ repr status))
    (fun e =>
       arg0 <- index (args e) 0 ;;
       log ERROR ("Failed to store " ++ target ++ " - " ++ str arg0)).

(* ===================================================================== *)
(** ** The [Parser] and the store client, from the specification          *)
(* ===================================================================== *)

Module ParserModel.

(** Modelled from the spec: [parser.py] is not part of the sources.  The
    whitespace test of rule 1 of section 4.2 (a reply that is empty or
    all-whitespace), over the ASCII whitespace characters. *)
Definition is_space (c : ascii) : bool :=
  match nat_of_ascii c with
  | 9 | 10 | 11 | 12 | 13 | 32 => true
  | _ => false
  end.

(** Modelled from the spec: [parser.py] is not part of the sources.  "Empty
    or all-whitespace" (section 4.2, rule 1): every character is a
    whitespace character, which the empty string satisfies. *)
Fixpoint all_whitespace (s : string) : bool :=
  match s with
  | EmptyString => true
  | String c rest => is_space c && all_whitespace rest
  end.

Section Rules.

(** The rule set of steps 2 to 4, which the specification leaves open: the
    classification of a (prompt, reply) pair, the cleaned reply and the
    acknowledgement sent back. *)
Variable classify : string -> string -> BotStates.
Variable clean : string -> string.
Variable acknowledge : BotStates -> string -> string.

(** Modelled from the spec: [Parser.process] followed by the three
    accessors, after the algorithm of section 4.2: rule 1 for a blank
    reply, the rule set otherwise. *)
Definition process (prompt reply : string) : Parser :=
  if all_whitespace reply then
    {| get_state := VMember UNKNOWN; get_text := ""; get_text_clean := "" |}
  else
    let state := classify prompt reply in
    {| get_state := VMember state;
       get_text := acknowledge state reply;
       get_text_clean := clean reply |}.

End Rules.

End ParserModel.

Module MessageStoreClient.

(** Modelled from the spec: [api_client.py] and the remote store are not
    part of the sources.  Section 4.3 and section 6 give the contract: one
    bounded-timeout request per call, which is delivered or fails. *)
Inductive StoreError : Type := NetworkFailure | Timeout | NonSuccess.

(** Modelled from the spec: the remote store is not part of the sources.
    How the one request of a call ends: a confirmed success, or one of the
    failures of section 4.3. *)
Inductive Transport : Type := Delivered | Fails (e : StoreError).

(** Modelled from the spec: [StoredMessage] of section 3, without the id
    and timestamp the store assigns. *)
Record StoredMessage : Type := { sm_text : string; sm_state : BotStates }.

(** Modelled from the spec: the remote store is not part of the sources.
    It is the list of the records it holds, newest first (the /fetch
    command of [bot.py] asks for one record to show the "last messages in
    server"), as the JSON objects it hands out. *)
Definition Remote : Type := list value.

Section Client.

Context `{R : Rendering}.

(** Modelled from the spec: [states.py] is not part of the sources.
    [toToken] is the member's value, the token [bot.py] uses as the query
    filter (section 4.1). *)
Definition toToken (s : BotStates) : string := member_value s.

(** Modelled from the spec: [fromToken], with an unrecognised token
    degraded to [UNKNOWN] (sections 4.1 and 7). *)
Definition fromToken (token : string) : BotStates :=
  match find (fun s => String.eqb (toToken s) token) all_states with
  | Some s => s
  | None => UNKNOWN
  end.

(** Modelled from the spec: [POST /messages] with body [{text, state}]. *)
Definition post (text token : string) (db : Remote) : Remote :=
  VDict [("text", VStr text); ("state", VStr token)] :: db.

(** Modelled from the spec: the remote store is not part of the sources.
    The records a query for [state=<token>] matches. *)
Definition has_state (token : string) (record : value) : bool :=
  match record with
  | VDict entries =>
      match assoc "state" entries with
      | Some (VStr t) => String.eqb t token
      | _ => false
      end
  | _ => false
  end.

(** Modelled from the spec: [GET /messages?state=<token>&limit=<int>]. *)
Definition get (token : string) (limit : nat) (db : Remote) : list value :=
  firstn limit (filter (has_state token) db).

(** Modelled from the spec: records lacking a [text] field are dropped one
    by one (section 4.3). *)
Fixpoint validate (records : list value) : list StoredMessage :=
  match records with
  | [] => []
  | VDict entries :: rest =>
      match assoc "text" entries with
      | Some t =>
          {| sm_text := str t;
             sm_state := match assoc "state" entries with
                         | Some (VStr token) => fromToken token
                         | _ => UNKNOWN
                         end |} :: validate rest
      | None => validate rest
      end
  | _ :: rest => validate rest
  end.


(** Modelled from the spec: [fetch(state, limit)]: a zero limit gives the
    empty sequence without error; otherwise up to [limit] matching records
    in the order the store returns them, or a [StoreError]. *)
Definition fetch (state : BotStates) (limit : nat) (t : Transport)
    (db : Remote) : StoreError + list StoredMessage :=
  if Nat.eqb limit 0 then inr []
  else match t with
       | Delivered => inr (validate (get (toToken state) limit db))
       | Fails e => inl e
       end.

End Client.

End MessageStoreClient.

(* ===================================================================== *)
(** ** Sample collaborators, for running the handlers on concrete inputs   *)
(* ===================================================================== *)

(** A [BotStates] whose members carry lower-case values and print as
    themselves, with a plain rendering of the other objects. *)
Definition sample_value (m : BotStates) : string :=
  match m with
  | POSITIVE => "positive"
  | NEGATIVE => "negative"
  | UNKNOWN => "unknown"
  end.

Definition sample_repr (v : value) : string :=
  match v with
  | VNone => "None"
  | VBool true => "True"
  | VBool false => "False"
  | VInt n => str_nat n
  | VStr s => "'" ++ s ++ "'"
  | VList _ => "[...]"
  | VDict _ => "{...}"
  | VMember m => "<BotStates." ++ sample_value m ++ ">"
  end.

Definition sample_rendering : Rendering :=
  {| member_value := sample_value;
     member_str := sample_value;
     str_object := sample_repr;
     repr := sample_repr |}.

(** The same values on a [BotStates] that keeps the [__str__] of
    [enum.Enum], which prints a member as [BotStates.NAME]. *)
Definition plain_enum_rendering : Rendering :=
  {| member_value := sample_value;
     member_str := fun m => match m with
                            | POSITIVE => "BotStates.POSITIVE"
                            | NEGATIVE => "BotStates.NEGATIVE"
                            | UNKNOWN => "BotStates.UNKNOWN"
                            end;
     str_object := sample_repr;
     repr := sample_repr |}.

(** A parser that answers [yes] and stays silent on anything else. *)
Definition sample_classify (prompt reply : string) : BotStates :=
  if String.eqb reply "yes" then POSITIVE else UNKNOWN.

Definition sample_acknowledge (s : BotStates) (reply : string) : string :=
  match s with
  | POSITIVE => "Glad to hear it"
  | NEGATIVE => "Sorry to hear it"
  | UNKNOWN => ""
  end.

Definition sample_process (prompt reply : option string) : Parser :=
  ParserModel.process sample_classify (fun r => r) sample_acknowledge
    (str_opt prompt) (str_opt reply).

(** A world where Telegram delivers, the store accepts, and the store holds
    one well-formed and two malformed records for POSITIVE. *)
Definition sample_world : World :=
  {| process := sample_process;
     reply_text := fun _ => Returned tt;
     store_message := fun _ _ => Returned (VBool true);
     messages_yes :=
       Returned (VList [VDict [("text", VStr "hi")]; VInt 3; VDict [("id", VInt 1)]]);
     messages_no := Returned (VList []) |}.

Definition reply_update (prompt reply : string) : Update :=
  {| message := Some (MkMessage (Some reply) (Some (MkMessage (Some prompt) None))) |}.

(** A message that replies to nothing. *)
Definition plain_update : Update :=
  {| message := Some (MkMessage (Some "hello") None) |}.

(** The same world, except that the store call times out with an exception
    built without arguments, as in [raise TimeoutError()]. *)
Definition timeout_world : World :=
  with_store sample_world (fun _ _ => Raised (Exception "TimeoutError" [])).


(* ===================================================================== *)
(** ** More ways to read a run and a result                                *)
(* ===================================================================== *)

(** The values [enumerate(v)] accepts (line 88), and the items it then
    runs over. *)
Definition iterable (v : value) : bool :=
  match v with
  | VList _ | VDict _ | VStr _ => true
  | _ => false
  end.

Definition items_of (v : value) : list value :=
  match v with
  | VList items => items
  | VDict entries => map (fun kv => VStr (fst kv)) entries
  | VStr s => chars s
  | _ => []
  end.

(** The records among what was returned: the items of a list; a dict or a
    string holds keys or characters, not records. *)
Definition records_of (v : value) : list value :=
  match v with
  | VList items => items
  | _ => []
  end.

(** How many items of a result the loop reports instead of displaying: the
    malformed records of a list, every key of a dict, every character of a
    string. *)
Definition undisplayed (v : value) : nat :=
  match v with
  | VList items => length (filter (fun m => negb (conforming m)) items)
  | VDict entries => length entries
  | VStr s => code_points s
  | _ => 0
  end.

(** A trace made of logger calls only. *)
Definition only_logs (tr : list Event) : bool :=
  forallb (fun ev => match ev with Log _ _ => true | _ => false end) tr.

(** The arguments of the [p.process] calls, in order. *)
Fixpoint processed (tr : list Event) : list (option string * option string) :=
  match tr with
  | [] => []
  | Process prompt t :: rest => (prompt, t) :: processed rest
  | _ :: rest => processed rest
  end.

(** The messages logged at level INFO, in order. *)
Fixpoint infos (tr : list Event) : list string :=
  match tr with
  | [] => []
  | Log INFO msg :: rest => msg :: infos rest
  | _ :: rest => infos rest
  end.

(** Line 127: the label of a record in the storage log lines. *)
Definition target_of `{Rendering} (p : Parser) : string :=
  "[" ++ str (get_state p) ++ "]: " ++ get_text_clean p.

(** A transport that, like the Bot API, refuses a message without text. *)
Definition BadRequest : exn :=
  Exception "BadRequest" [VStr "Message text is empty"].

Definition strict_telegram_world : World :=
  {| process := sample_process;
     reply_text := fun t => if String.eqb t "" then Raised BadRequest
                            else Returned tt;
     store_message := fun _ _ => Returned (VBool true);
     messages_yes := Returned (VList []);
     messages_no := Returned (VList []) |}.

(* ===================================================================== *)
(** ** [bot.py]: the health check, /ping and the bootstrap                *)
(* ===================================================================== *)

(** [requests.Response], as far as [health_check] reads it. *)
Module requests.
Record Response : Type := { status_code : nat; text : string }.
End requests.

(** [aiohttp.web]: the response [web.json_response(data, status=...)]
    builds. *)
Module web.
Record Response : Type := { body : value; status : nat }.
Definition json_response (data : value) (code : nat) : Response :=
  {| body := data; status := code |}.
End web.

(** The callbacks [main] registers, and the two kinds of handler it wraps
    them in. *)
Inductive Callback : Type :=
| cb_start | cb_help | cb_ping | cb_fetch
| cb_answer_if_user_responds_to_claude.

Inductive HandlerSpec : Type :=
| CommandHandler (command : string) (callback : Callback)
| MessageHandler_TEXT_not_COMMAND (callback : Callback).
                    (* MessageHandler(filters.TEXT & ~filters.COMMAND, ...) *)

(** The calls of the rest of [bot.py]: those of the two handlers above,
    and the ones only [health_check] and [main] make. *)
Inductive SysEvent : Type :=
| Bot (ev : Event)
| RequestsGet (url : string) (timeout : nat)   (* requests.get(url, timeout=...) *)
| RootLog (lvl : Level) (msg : string)         (* logging.error: the root logger *)
| BuildApplication (token : string)            (* Application.builder().token(t).build() *)
| AddHandler (h : HandlerSpec)                 (* application.add_handler(h) *)
| AddGet (path : string)                       (* app.router.add_get(path, handle_health) *)
| RunnerSetup                                  (* await runner.setup() *)
| SiteStart (host : string) (port : nat)       (* await site.start() *)
| RunPolling.                                  (* application.run_polling() *)

Definition SysRun (A : Type) : Type := (list SysEvent * outcome A)%type.

Definition sys_ret {A} (a : A) : SysRun A := ([], Returned a).

Definition sys_bind {A B} (m : SysRun A) (k : A -> SysRun B) : SysRun B :=
  match m with
  | (t, inl e) => (t, inl e)
  | (t, inr a) => let (t', r) := k a in ((t ++ t')%list, r)
  end.

(** [try: body except Exception as e: handler(e)] *)
Definition sys_try {A} (body : SysRun A) (handler : exn -> SysRun A) : SysRun A :=
  match body with
  | (t, inl e) => let (t', r) := handler e in ((t ++ t')%list, r)
  | (t, inr a) => (t, inr a)
  end.

Definition sys_call {A} (ev : SysEvent) (o : outcome A) : SysRun A := ([ev], o).

(** Code of the handlers above, run as part of the rest. *)
Definition lift {A} (m : Run A) : SysRun A := (map Bot (fst m), snd m).

Definition sys_trace {A} (m : SysRun A) : list SysEvent := fst m.
Definition sys_result {A} (m : SysRun A) : outcome A := snd m.

Declare Scope sys_scope.
Delimit Scope sys_scope with sys.
Notation "x <- m ;; k" := (sys_bind m (fun x => k))
  (at level 61, m at next level, right associativity) : sys_scope.
Notation "m ;; k" := (sys_bind m (fun _ => k))
  (at level 61, right associativity) : sys_scope.

(** [v == s] for a string literal [s]. *)
Definition eq_str (v : value) (s : string) : bool :=
  match v with
  | VStr t => String.eqb t s
  | _ => false
  end.

(** What the bootstrap meets: the value of [TELEGRAM_TOKEN] in the
    environment, and how the calls that can fail end. *)
Record Boot : Type := {
  TELEGRAM_TOKEN : option string;          (* os.getenv('TELEGRAM_TOKEN') *)
  build : string -> outcome unit;          (* line 157 *)
  runner_setup : outcome unit;             (* line 174 *)
  site_start : outcome unit;               (* line 176 *)
  run_polling : outcome unit               (* line 180 *)
}.

Section Health.

Context `{R : Rendering}.

(** [API_ENDPOINT] (line 29), what [requests.get] does, and [str(e)] of an
    exception, which its class decides. *)
Variable API_ENDPOINT : string.
Variable requests_get : string -> nat -> outcome requests.Response.
Variable str_exn : exn -> string.
Variable w : World.

Local Open Scope sys_scope.

Definition logger_info (msg : string) : SysRun unit :=
  sys_call (Bot (Log INFO msg)) (Returned tt).

(** Lines 32-57. *)
Definition health_check : SysRun value :=
  sys_try
    (let api_url := API_ENDPOINT ++ "/health" in
     logger_info ("Checking API health at: " ++ api_url) ;;
     response <- sys_call (RequestsGet api_url 5) (requests_get api_url 5) ;;
     logger_info ("API Response: " ++ str_nat (requests.status_code response)
                  ++ " - " ++ requests.text response) ;;
     let api_status := Nat.eqb (requests.status_code response) 200 in
     let result :=
       VDict [("status", VStr "healthy");
              ("api_connected", VBool api_status);
              ("api_endpoint", VStr API_ENDPOINT);
              ("api_status_code", VInt (requests.status_code response));
              ("api_response", VStr (requests.text response))] in
     logger_info ("Health check result: " ++ str result) ;;
     sys_ret result)
    (fun e =>
       sys_call (RootLog ERROR ("Health check failed: " ++ str_exn e))
                (Returned tt) ;;
       sys_ret (VDict [("status", VStr "unhealthy");
                       ("error", VStr (str_exn e));
                       ("api_endpoint", VStr API_ENDPOINT)])).

(** Lines 61-64. *)
Definition handle_health : SysRun web.Response :=
  health <- health_check ;;
  health_status <- lift (getitem health "status") ;;
  let status := if eq_str health_status "healthy" then 200 else 500 in
  sys_ret (web.json_response health status).

(** Lines 71-74. *)
Definition ping (update : Update) : SysRun unit :=
  health <- health_check ;;
  health_status <- lift (getitem health "status") ;;
  lift (update_message_reply_text w update
          ("pong! connection to server is " ++ str health_status)).

(** The dict of lines 42-48 and the dict of lines 53-57. *)
Definition healthy_result (response : requests.Response) : value :=
  VDict [("status", VStr "healthy");
         ("api_connected", VBool (Nat.eqb (requests.status_code response) 200));
         ("api_endpoint", VStr API_ENDPOINT);
         ("api_status_code", VInt (requests.status_code response));
         ("api_response", VStr (requests.text response))].

Definition unhealthy_result (e : exn) : value :=
  VDict [("status", VStr "unhealthy");
         ("error", VStr (str_exn e));
         ("api_endpoint", VStr API_ENDPOINT)].

Definition health_of (o : outcome requests.Response) : value :=
  match o with
  | inr response => healthy_result response
  | inl e => unhealthy_result e
  end.

(** The word /ping and the health endpoint derive from the outcome of the
    request. *)
Definition health_word (o : outcome requests.Response) : string :=
  match o with
  | inr _ => "healthy"
  | inl _ => "unhealthy"
  end.

End Health.

Section Bootstrap.

Variable b : Boot.

Local Open Scope sys_scope.

(** Lines 173-176: [start_health_server]. *)
Definition start_health_server : SysRun unit :=
  sys_call RunnerSetup (runner_setup b) ;;
  sys_call (SiteStart "0.0.0.0" 8080) (site_start b).

(** Lines 149-180.  Registering a handler or a route, and building the
    [web] objects, are taken not to raise. *)
Definition main : SysRun unit :=
  let token := TELEGRAM_TOKEN b in
  match token with
  | None | Some EmptyString =>
      sys_call (RootLog ERROR "No TELEGRAM_TOKEN provided") (Returned tt)
  | Some token =>
      sys_call (BuildApplication token) (build b token) ;;
      sys_call (AddHandler (CommandHandler "start" cb_start)) (Returned tt) ;;
      sys_call (AddHandler (CommandHandler "help" cb_help)) (Returned tt) ;;
      sys_call (AddHandler (CommandHandler "ping" cb_ping)) (Returned tt) ;;
      sys_call (AddHandler (CommandHandler "fetch" cb_fetch)) (Returned tt) ;;
      sys_call (AddHandler (MessageHandler_TEXT_not_COMMAND
                              cb_answer_if_user_responds_to_claude))
               (Returned tt) ;;
      sys_call (AddGet "/health") (Returned tt) ;;
      start_health_server ;;
      sys_call RunPolling (run_polling b)
  end.

End Bootstrap.

(** Reading a run of the rest of [bot.py]. *)
Fixpoint gets (tr : list SysEvent) : list (string * nat) :=
  match tr with
  | [] => []
  | RequestsGet url timeout :: rest => (url, timeout) :: gets rest
  | _ :: rest => gets rest
  end.

Fixpoint bot_events (tr : list SysEvent) : list Event :=
  match tr with
  | [] => []
  | Bot ev :: rest => ev :: bot_events rest
  | _ :: rest => bot_events rest
  end.

Fixpoint handlers_added (tr : list SysEvent) : list HandlerSpec :=
  match tr with
  | [] => []
  | AddHandler h :: rest => h :: handlers_added rest
  | _ :: rest => handlers_added rest
  end.

Fixpoint builds (tr : list SysEvent) : list string :=
  match tr with
  | [] => []
  | BuildApplication token :: rest => token :: builds rest
  | _ :: rest => builds rest
  end.

Definition polls (tr : list SysEvent) : bool :=
  existsb (fun ev => match ev with RunPolling => true | _ => false end) tr.

(** Sample surroundings: an API that answers 503, one that cannot be
    reached, and [str(e)] as the first argument of the exception. *)
Definition api_503 (url : string) (timeout : nat) : outcome requests.Response :=
  Returned {| requests.status_code := 503;
              requests.text := "Service Unavailable" |}.

Definition api_down (url : string) (timeout : nat) : outcome requests.Response :=
  Raised (Exception "ConnectionError" [VStr "connection refused"]).

Definition sample_str_exn (e : exn) : string :=
  match args e with
  | [] => ""
  | a :: _ => @str sample_rendering a
  end.

(** A bootstrap with a token where port 8080 is taken. *)
Definition port_taken_boot : Boot :=
  {| TELEGRAM_TOKEN := Some "123:abc";
     build := fun _ => Returned tt;
     runner_setup := Returned tt;
     site_start := Raised (Exception "OSError" [VInt 98; VStr "address already in use"]);
     run_polling := Returned tt |}.

Definition good_boot : Boot :=
  {| TELEGRAM_TOKEN := Some "123:abc";
     build := fun _ => Returned tt;
     runner_setup := Returned tt;
     site_start := Returned tt;
     run_polling := Returned tt |}.

(** More sample surroundings: a store that refuses the connection, an
    API that fails, returns [None], or returns an error object in place of
    a list; an update without a message; a bootstrap without a token. *)
Definition refusing_store_world : World :=
  with_store sample_world
    (fun _ _ => Raised (Exception "ConnectionError"
                          [VStr "connection refused"; VInt 111])).

Definition api_failure : exn := Exception "ConnectionError" [VStr "api down"].

Definition failing_api_world : World :=
  with_messages sample_world (Raised api_failure) (Returned (VList [])).

Definition none_result_world : World :=
  with_messages sample_world (Returned VNone) (Returned (VList [])).

Definition error_object_world : World :=
  with_messages sample_world
    (Returned (VDict [("error", VStr "boom"); ("code", VInt 500)]))
    (Returned (VList [VDict [("text", VStr "no thanks")]])).

(** The two-character string [n] [e-acute]: three bytes in UTF-8. *)
Definition ne_acute : string :=
  String "n" (String (ascii_of_nat 195) (String (ascii_of_nat 169) EmptyString)).

Definition text_result_world : World :=
  with_messages sample_world
    (Returned (VStr ne_acute))
    (Returned (VList [VDict [("text", VStr "no thanks")]])).


Definition update_without_message : Update := {| message := None |}.

Definition no_token_boot : Boot :=
  {| TELEGRAM_TOKEN := Some "";
     build := fun _ => Returned tt;
     runner_setup := Returned tt;
     site_start := Returned tt;
     run_polling := Returned tt |}.

(* ===================================================================== *)
(** ** Facts about runs                                                   *)
(* ===================================================================== *)

Lemma bind_call_returned {A B} (ev : Event) (a : A) (k : A -> Run B) :
  bind (call ev (Returned a)) k = (ev :: trace (k a), result (k a)).
Proof. unfold bind, call, Returned, trace, result. destruct (k a); reflexivity. Qed.

Lemma bind_call_raised {A B} (ev : Event) (e : exn) (k : A -> Run B) :
  bind (call ev (Raised e)) k = ([ev], Raised e).
Proof. reflexivity. Qed.

Lemma bind_log {B} (lvl : Level) (msg : string) (k : unit -> Run B) :
  bind (log lvl msg) k = (Log lvl msg :: trace (k tt), result (k tt)).
Proof. apply bind_call_returned. Qed.

Lemma trace_ret {A} (a : A) : trace (ret a) = [].
Proof. reflexivity. Qed.

Lemma result_ret {A} (a : A) : result (ret a) = Returned a.
Proof. reflexivity. Qed.

Lemma bind_returned {A B} (t : list Event) (a : A) (k : A -> Run B) :
  bind (t, Returned a) k = ((t ++ trace (k a))%list, result (k a)).
Proof. unfold bind, Returned, trace, result. destruct (k a); reflexivity. Qed.

Lemma bind_ret {A B} (a : A) (k : A -> Run B) : bind (ret a) k = k a.
Proof. unfold bind, ret, Returned. destruct (k a); reflexivity. Qed.

Lemma run_eta {A} (m : Run A) : m = (trace m, result m).
Proof. destruct m; reflexivity. Qed.

Lemma trace_pair {A} (t : list Event) (r : outcome A) : trace (t, r) = t.
Proof. reflexivity. Qed.

Lemma result_pair {A} (t : list Event) (r : outcome A) : result (t, r) = r.
Proof. reflexivity. Qed.

Create Rewrite HintDb run.

#[local] Hint Rewrite @trace_pair @result_pair @trace_ret @result_ret
  @bind_returned @bind_ret : run.

Lemma replies_app (t1 t2 : list Event) :
  replies (t1 ++ t2) = (replies t1 ++ replies t2)%list.
Proof.
  induction t1 as [|ev t1 IH]; [reflexivity|].
  destruct ev; simpl; rewrite IH; reflexivity.
Qed.

Lemma stores_app (t1 t2 : list Event) :
  stores (t1 ++ t2) = (stores t1 ++ stores t2)%list.
Proof.
  induction t1 as [|ev t1 IH]; [reflexivity|].
  destruct ev; simpl; rewrite IH; reflexivity.
Qed.

Lemma errors_app (t1 t2 : list Event) :
  errors (t1 ++ t2) = (errors t1 ++ errors t2)%list.
Proof.
  induction t1 as [|ev t1 IH]; [reflexivity|].
  destruct ev as [[] ?| | | | |]; simpl; rewrite IH; reflexivity.
Qed.

Lemma parsers_app (t1 t2 : list Event) :
  parsers (t1 ++ t2) = parsers t1 + parsers t2.
Proof.
  induction t1 as [|ev t1 IH]; [reflexivity|].
  destruct ev; simpl; rewrite IH; reflexivity.
Qed.

Section ReplyHandler.

Context `{R : Rendering}.
Variable w : World.

Lemma replies_respond_trace (m original : Message) :
  replies (respond_trace w m original)
  = [get_text (process w (text original) (text m))].
Proof.
  unfold respond_trace. cbn -[append].
  destruct (negb _); reflexivity.
Qed.

Lemma stores_respond_trace (m original : Message) :
  stores (respond_trace w m original) = [].
Proof.
  unfold respond_trace. cbn -[append].
  destruct (negb _); reflexivity.
Qed.

Lemma errors_respond_trace (m original : Message) :
  errors (respond_trace w m original) = [].
Proof.
  unfold respond_trace. cbn -[append].
  destruct (negb _); reflexivity.
Qed.

(** The handler on a reply: the calls up to [reply_text], then either the
    exception [reply_text] raised, or the store step. *)
Lemma run_on_reply (u : Update) (m original : Message) :
  message u = Some m ->
  reply_to_message m = Some original ->
  let p := process w (text original) (text m) in
  answer_if_user_responds_to_claude w u
  = match reply_text w (get_text p) with
    | inl e => (respond_trace w m original, Raised e)
    | inr _ => ((respond_trace w m original ++ trace (store_step w p))%list,
                result (store_step w p))
    end.
Proof.
  intros Hm Hr p.
  unfold answer_if_user_responds_to_claude, respond_trace,
    update_message_reply_text.
  rewrite Hm, Hr. fold p.
  rewrite bind_log, bind_call_returned, bind_call_returned.
  fold (store_step w p).
  destruct (negb (truthy (VStr (get_text p)))).
  - rewrite bind_log.
    destruct (reply_text w (get_text p)) as [e|[]].
    + reflexivity.
    + unfold Returned. rewrite (bind_call_returned _ tt). reflexivity.
  - rewrite bind_ret.
    destruct (reply_text w (get_text p)) as [e|[]].
    + reflexivity.
    + unfold Returned. rewrite (bind_call_returned _ tt). reflexivity.
Qed.

(** The three ways the store step ends. *)
Lemma store_step_raised (p : Parser) (e : exn) :
  store_message w (get_text_clean p) (str (get_state p)) = Raised e ->
  store_step w p
  = match args e with
    | [] => ([StoreMessage (get_text_clean p) (str (get_state p))],
             Raised IndexError)
    | arg0 :: _ =>
        ([StoreMessage (get_text_clean p) (str (get_state p));
          Log ERROR ("Failed to store "
                     ++ ("[" ++ str (get_state p) ++ "]: " ++ get_text_clean p)
                     ++ " - " ++ str arg0)],
         Returned tt)
    end.
Proof.
  intros He. unfold store_step. rewrite He.
  rewrite bind_call_raised. unfold try_except, Raised, index.
  destruct (args e) as [|arg0 rest]; reflexivity.
Qed.

Lemma store_step_falsy (p : Parser) (status : value) :
  store_message w (get_text_clean p) (str (get_state p)) = Returned status ->
  truthy status = false ->
  store_step w p
  = ([StoreMessage (get_text_clean p) (str (get_state p));
      Log ERROR ("Failed to store "
                 ++ ("[" ++ str (get_state p) ++ "]: " ++ get_text_clean p)
                 ++ " - "
                 ++ ("POST request to store "
                     ++ ("[" ++ str (get_state p) ++ "]: " ++ get_text_clean p)
                     ++ " did not return valid status"))],
     Returned tt).
Proof.
  intros Hs Hf. unfold store_step. rewrite Hs.
  rewrite bind_call_returned, Hf. reflexivity.
Qed.

Lemma store_step_truthy (p : Parser) (status : value) :
  store_message w (get_text_clean p) (str (get_state p)) = Returned status ->
  truthy status = true ->
  store_step w p
  = ([StoreMessage (get_text_clean p) (str (get_state p));
      Log INFO ("Storage of "
                ++ ("[" ++ str (get_state p) ++ "]: " ++ get_text_clean p)
                ++ " returned status=" ++ repr status)],
     Returned tt).
Proof.
  intros Hs Ht. unfold store_step. rewrite Hs.
  rewrite bind_call_returned, Ht. reflexivity.
Qed.

(** The store step always starts with its one call to
    [api.store_message], and neither replies nor stores again. *)
Lemma store_step_trace (p : Parser) :
  exists rest,
    trace (store_step w p)
    = StoreMessage (get_text_clean p) (str (get_state p)) :: rest
    /\ stores rest = [] /\ replies rest = [].
Proof.
  destruct (store_message w (get_text_clean p) (str (get_state p)))
    as [e|status] eqn:Hs.
  - rewrite (store_step_raised p Hs).
    destruct (args e); eexists; repeat split; reflexivity.
  - destruct (truthy status) eqn:Ht.
    + rewrite (store_step_truthy p Hs Ht). eexists; repeat split; reflexivity.
    + rewrite (store_step_falsy p Hs Ht). eexists; repeat split; reflexivity.
Qed.

End ReplyHandler.

(** Two splits of one trace around its only store call agree. *)
Lemma store_split_unique (pre pre' post post' : list Event) (t s t' s' : string) :
  stores pre = [] -> stores pre' = [] ->
  (pre ++ StoreMessage t s :: post)%list = (pre' ++ StoreMessage t' s' :: post')%list ->
  pre = pre' /\ post = post'.
Proof.
  revert pre'. induction pre as [|ev pre IH]; intros [|ev' pre'] Hp Hp' Heq;
    simpl in Heq.
  - injection Heq as _ _ Hpost. split; [reflexivity | exact Hpost].
  - injection Heq as Hev _. subst ev'. discriminate Hp'.
  - injection Heq as Hev _. subst ev. discriminate Hp.
  - injection Heq as Hev Hrest. subst ev'.
    assert (stores pre = [] /\ stores pre' = []) as [H1 H2].
    { destruct ev; simpl in Hp, Hp'; try discriminate; split; assumption. }
    destruct (IH pre' H1 H2 Hrest) as [-> ->]. split; reflexivity.
Qed.

Section ReplyHandlerClaims.

Context `{R : Rendering}.

(** C9.  An update whose message is absent, or whose message is not a reply
    to an earlier message ([reply_to_message] is [None]), makes the reply
    handler return at once: it logs one debug line, constructs no [Parser],
    sends nothing to the user and makes no store call. *)
Theorem non_reply_updates_are_ignored (w : World) (u : Update) :
  (message u = None
   \/ exists m, message u = Some m /\ reply_to_message m = None) ->
  let run := answer_if_user_responds_to_claude w u in
  (exists msg, run = ([Log DEBUG msg], Returned tt))
  /\ parsers (trace run) = 0
  /\ replies (trace run) = []
  /\ stores (trace run) = [].
Proof.
  intros [Hm | (m & Hm & Hr)]; unfold answer_if_user_responds_to_claude;
    rewrite Hm; [|rewrite Hr]; cbn -[append];
    (split; [eexists; reflexivity | repeat split]).
Qed.

(** C1 (what the code does instead).  When the parser's response is empty,
    the handler logs that it is doing nothing and then goes on to call
    [reply_text] with the empty response all the same. *)
Theorem empty_response_is_still_replied (w : World) (u : Update)
    (m original : Message) :
  message u = Some m ->
  reply_to_message m = Some original ->
  get_text (process w (text original) (text m)) = "" ->
  let run := answer_if_user_responds_to_claude w u in
  In (Log DEBUG ("Doing nothing. Response was not generated for user input '"
                 ++ str_opt (text m) ++ "'")) (trace run)
  /\ replies (trace run) = [""].
Proof.
  intros Hm Hr He run. subst run.
  rewrite (run_on_reply w u Hm Hr).
  pose proof (replies_respond_trace w m original) as Hrep.
  assert (In (Log DEBUG ("Doing nothing. Response was not generated for user input '"
                         ++ str_opt (text m) ++ "'")) (respond_trace w m original))
    as Hin.
  { unfold respond_trace. rewrite He. cbn -[append]. auto 6. }
  rewrite He in *.
  destruct (reply_text w "") as [e|[]]; rewrite trace_pair.
  - split; assumption.
  - destruct (store_step_trace w (process w (text original) (text m)))
      as (rest & Hrest & _ & Hnorep).
    rewrite Hrest. split.
    + apply in_or_app. left. exact Hin.
    + rewrite replies_app, Hrep. cbn [replies]. rewrite Hnorep. reflexivity.
Qed.

(** C2.  Whenever the reply handler calls [api.store_message], the one call
    to [reply_text] comes earlier in the run and has already returned; no
    store call comes before it.  Whatever the store call does, the same
    response is handed to [reply_text]. *)
Theorem reply_is_sent_before_store (w : World) (u : Update)
    (pre post : list Event) (t s : string) :
  trace (answer_if_user_responds_to_claude w u)
  = (pre ++ StoreMessage t s :: post)%list ->
  exists response,
    replies pre = [response]
    /\ reply_text w response = Returned tt
    /\ stores pre = [] /\ replies post = [] /\ stores post = []
    /\ forall f,
         replies (trace (answer_if_user_responds_to_claude (with_store w f) u))
         = [response].
Proof.
  intros Htr.
  destruct (message u) as [m|] eqn:Hm.
  2:{ unfold answer_if_user_responds_to_claude in Htr. rewrite Hm in Htr.
      apply (f_equal stores) in Htr. rewrite stores_app in Htr.
      cbn -[append] in Htr. destruct (stores pre); discriminate Htr. }
  destruct (reply_to_message m) as [original|] eqn:Hr.
  2:{ unfold answer_if_user_responds_to_claude in Htr. rewrite Hm, Hr in Htr.
      apply (f_equal stores) in Htr. rewrite stores_app in Htr.
      cbn -[append] in Htr. destruct (stores pre); discriminate Htr. }
  rewrite (run_on_reply w u Hm Hr) in Htr.
  set (p := process w (text original) (text m)) in *.
  destruct (reply_text w (get_text p)) as [e|[]] eqn:Hsend.
  { rewrite trace_pair in Htr.
    apply (f_equal stores) in Htr. rewrite stores_app in Htr.
    rewrite stores_respond_trace in Htr. cbn in Htr.
    destruct (stores pre); discriminate Htr. }
  rewrite trace_pair in Htr.
  destruct (store_step_trace w p) as (rest & Hrest & Hnost & Hnorep).
  rewrite Hrest in Htr.
  assert (stores pre = [] /\ stores post = []) as [Hpre Hpost].
  { apply (f_equal stores) in Htr. rewrite !stores_app in Htr.
    rewrite stores_respond_trace in Htr. cbn in Htr. rewrite Hnost in Htr.
    destruct (stores pre) as [|x xs]; cbn in Htr.
    - inversion Htr. split; reflexivity.
    - inversion Htr as [[Hx Hxs]]. destruct xs; discriminate Hxs. }
  symmetry in Htr.
  destruct (@store_split_unique _ _ _ _ _ _ _ _
              Hpre (stores_respond_trace w m original) Htr)
    as [Hpre_eq Hpost_eq].
  exists (get_text p). subst pre post.
  split; [apply replies_respond_trace|].
  split; [exact Hsend|].
  split; [apply stores_respond_trace|].
  split; [exact Hnorep|].
  split; [exact Hnost|].
  intros f.
  rewrite (run_on_reply (with_store w f) u Hm Hr).
  cbn [process reply_text with_store]. fold p. rewrite Hsend.
  rewrite trace_pair.
  destruct (store_step_trace (with_store w f) p) as (rest' & Hrest' & _ & Hnorep').
  rewrite Hrest', replies_app.
  change (respond_trace (with_store w f) m original) with (respond_trace w m original).
  rewrite replies_respond_trace. fold p. cbn [replies]. rewrite Hnorep'. reflexivity.
Qed.

(** Store failures the handler does recover from: an exception that
    carries at least one argument, and a status that is not truthy.  One
    ERROR line is logged and the handler returns normally. *)
Lemma store_failure_is_logged (w : World) (u : Update) (m original : Message) :
  message u = Some m ->
  reply_to_message m = Some original ->
  let p := process w (text original) (text m) in
  reply_text w (get_text p) = Returned tt ->
  ((exists e, store_message w (get_text_clean p) (str (get_state p)) = Raised e
              /\ args e <> [])
   \/ (exists status,
         store_message w (get_text_clean p) (str (get_state p)) = Returned status
         /\ truthy status = false)) ->
  let run := answer_if_user_responds_to_claude w u in
  result run = Returned tt /\ exists msg, errors (trace run) = [msg].
Proof.
  intros Hm Hr p Hsend Hfail run. subst run.
  rewrite (run_on_reply w u Hm Hr). fold p.
  unfold Returned in Hsend. rewrite Hsend. cbv beta iota.
  rewrite trace_pair, result_pair.
  destruct Hfail as [(e & He & Hargs) | (status & Hs & Hf)].
  - rewrite (store_step_raised w p He).
    destruct (args e) as [|arg0 rest]; [contradiction Hargs; reflexivity|].
    rewrite trace_pair, result_pair. split; [reflexivity|].
    rewrite errors_app, errors_respond_trace. eexists. reflexivity.
  - rewrite (store_step_falsy w p Hs Hf).
    rewrite trace_pair, result_pair. split; [reflexivity|].
    rewrite errors_app, errors_respond_trace. eexists. reflexivity.
Qed.

(** C4 (the failing case).  When [api.store_message] raises an exception
    whose [args] tuple is empty, evaluating [e.args[0]] in the [except]
    clause raises [IndexError]: nothing is logged at ERROR level and the
    [IndexError] leaves the handler. *)
Theorem store_exception_without_args_escapes (w : World) (u : Update)
    (m original : Message) (e : exn) :
  message u = Some m ->
  reply_to_message m = Some original ->
  let p := process w (text original) (text m) in
  reply_text w (get_text p) = Returned tt ->
  store_message w (get_text_clean p) (str (get_state p)) = Raised e ->
  args e = [] ->
  let run := answer_if_user_responds_to_claude w u in
  result run = Raised IndexError /\ errors (trace run) = [].
Proof.
  intros Hm Hr p Hsend He Hargs run. subst run.
  rewrite (run_on_reply w u Hm Hr). fold p.
  unfold Returned in Hsend. rewrite Hsend. cbv beta iota.
  rewrite (store_step_raised w p He), Hargs.
  rewrite !trace_pair, !result_pair. split; [reflexivity|].
  rewrite errors_app, errors_respond_trace. reflexivity.
Qed.

End ReplyHandlerClaims.

(* ===================================================================== *)
(** ** The /fetch handler                                                 *)
(* ===================================================================== *)

Lemma filters_app (t1 t2 : list Event) :
  filters (t1 ++ t2) = (filters t1 ++ filters t2)%list.
Proof.
  induction t1 as [|ev t1 IH]; [reflexivity|].
  destruct ev; simpl; rewrite IH; reflexivity.
Qed.

Section FetchHandler.

Context `{R : Rendering}.

(** On a conforming record, [m['text']] is found. *)
Lemma getitem_conforming (m : value) :
  conforming m = true -> getitem m "text" = ret (text_of m).
Proof.
  unfold conforming, getitem, text_of.
  destruct m as [| | | | |entries|]; try discriminate.
  cbn [is_dict has_key andb].
  destruct (assoc "text" entries); [reflexivity | discriminate].
Qed.

(** The inner loop never raises: it appends one line per conforming record
    and logs one ERROR line per other record. *)
Lemma for_each_message_run (state : string) (items : list value) :
  forall (i : nat) (print_me : list string),
    for_each_message state i items print_me
    = (skipped state i items, Returned (print_me ++ shown state items)%list).
Proof.
  induction items as [|m rest IH]; intros i print_me.
  - cbn [for_each_message skipped]. unfold shown. cbn [filter map].
    rewrite app_nil_r. reflexivity.
  - cbn [for_each_message skipped]. fold (conforming m).
    destruct (conforming m) eqn:Hc.
    + rewrite (getitem_conforming m Hc), bind_ret, IH.
      unfold shown. cbn [filter]. rewrite Hc. cbn [map].
      rewrite <- app_assoc. reflexivity.
    + rewrite bind_log, IH. rewrite trace_pair, result_pair.
      unfold shown. cbn [filter]. rewrite Hc. reflexivity.
Qed.

Lemma replies_skipped (state : string) (items : list value) :
  forall i, replies (skipped state i items) = [].
Proof.
  induction items as [|m rest IH]; intros i; [reflexivity|].
  cbn [skipped]. destruct (conforming m); [apply IH|].
  cbn [replies]. apply IH.
Qed.

(** The loops only log: whatever the store returned, and whether or not
    iterating over it raises, they never call [reply_text]. *)
Lemma replies_for_each_state (messages_list : list (string * value)) :
  forall print_me, replies (trace (for_each_state messages_list print_me)) = [].
Proof.
  induction messages_list as [|[state messages] rest IH]; intros print_me.
  - reflexivity.
  - cbn [for_each_state].
    assert (forall items,
      replies (trace (print_me' <- for_each_message state 0 items print_me ;;
                      for_each_state rest print_me')) = []) as Hinner.
    { intros items. rewrite for_each_message_run.
      unfold bind, Returned.
      specialize (IH (print_me ++ shown state items)%list).
      destruct (for_each_state rest _) as [t' r]. rewrite trace_pair in *.
      rewrite replies_app, replies_skipped, IH. reflexivity. }
    destruct messages; cbn [iterate];
      try reflexivity; rewrite bind_ret; apply Hinner.
Qed.

(** The whole handler when both calls returned sequences of records. *)
Lemma fetch_run (w : World) (u : Update) (msg : Message) (yes no : list value) :
  message u = Some msg ->
  messages_yes w = Returned (VList yes) ->
  messages_no w = Returned (VList no) ->
  let body := join (nl ++ nl)
                (number_lines 0 (shown (member_value POSITIVE) yes
                                 ++ shown (member_value NEGATIVE) no)%list) in
  fetch w u
  = ((GetMessages 1 (member_value POSITIVE)
      :: GetMessages 1 (member_value NEGATIVE)
      :: skipped (member_value POSITIVE) 0 yes
      ++ skipped (member_value NEGATIVE) 0 no
      ++ [ReplyText body])%list,
     reply_text w body).
Proof.
  intros Hm Hy Hn body. unfold fetch, update_message_reply_text.
  rewrite Hm, Hy, Hn.
  rewrite !bind_call_returned.
  cbn [build_messages_list for_each_state iterate].
  rewrite bind_ret, for_each_message_run, bind_returned.
  rewrite bind_ret, for_each_message_run, bind_returned.
  cbn [for_each_state]. unfold call. autorewrite with run.
  cbn [app]. rewrite app_nil_r, <- app_assoc. reflexivity.
Qed.

End FetchHandler.

Lemma In_replies (tr : list Event) (t : string) :
  In (ReplyText t) tr <-> In t (replies tr).
Proof.
  induction tr as [|ev tr IH]; [reflexivity|].
  destruct ev; cbn [replies In]; rewrite <- IH;
    intuition (try discriminate; try congruence).
Qed.

Section FetchDisplay.

Context `{R : Rendering}.




Lemma errors_skipped_length (state : string) (items : list value) :
  forall i,
    length (errors (skipped state i items))
    = length (filter (fun m => negb (conforming m)) items).
Proof.
  induction items as [|m rest IH]; intros i; [reflexivity|].
  cbn [skipped filter]. destruct (conforming m); cbn [negb errors length].
  - apply IH.
  - f_equal. apply IH.
Qed.


(** The text sent at line 95 is empty or starts with ["Message #"], so it
    is never the text of line 83. *)
Lemma join_number_lines_head (sep : string) (print_me : list string) :
  forall i,
    join sep (number_lines i print_me) = ""
    \/ exists rest, join sep (number_lines i print_me) = String "M" rest.
Proof.
  destruct print_me as [|x rest]; intros i; [left; reflexivity|right].
  cbn [number_lines join].
  destruct (number_lines (S i) rest); eexists; reflexivity.
Qed.

Lemma fetch_never_says_no_messages (w : World) (u : Update) :
  ~ In (ReplyText no_messages_found) (trace (fetch w u)).
Proof.
  unfold fetch.
  destruct (messages_yes w) as [e|yes].
  { rewrite bind_call_raised, trace_pair. intros [H|[]]. discriminate H. }
  change (@inr exn value yes) with (Returned yes). rewrite bind_call_returned.
  destruct (messages_no w) as [e|no].
  { rewrite bind_call_raised. rewrite !trace_pair.
    intros [H|[H|[]]]; discriminate H. }
  change (@inr exn value no) with (Returned no). rewrite bind_call_returned.
  cbn [build_messages_list]. cbv beta iota.
  pose proof (replies_for_each_state
                [(member_value POSITIVE, yes); (member_value NEGATIVE, no)] [])
    as Hloops.
  rewrite !trace_pair. intros [H|[H|H]]; try discriminate H.
  apply In_replies in H. revert H.
  destruct (for_each_state _ _) as [t [e|print_me]]; rewrite trace_pair in Hloops.
  - cbn [bind]. rewrite trace_pair, Hloops. intros [].
  - change (@inr exn (list string) print_me) with (Returned print_me).
    rewrite bind_returned, trace_pair, replies_app, Hloops.
    unfold update_message_reply_text, call, raise.
    destruct (message u); rewrite trace_pair; cbn [replies app In];
      [|intros []].
    intros [H|[]].
    assert (no_messages_found
            = String "N" "o messages found from me (wishengine)") as Hn
      by reflexivity.
    rewrite Hn in H.
    destruct (join_number_lines_head (nl ++ nl) print_me 0) as [He|[rest He]];
      rewrite He in H; discriminate H.
Qed.







(** C10.  [messages_list] always has two entries, one per state, so the
    test [not messages_list] is false: the handler never sends the
    ["No messages found"] text, and whatever records the two calls
    returned -- none at all included -- it sends the joined lines. *)
Theorem no_messages_branch_is_unreachable (w : World) (u : Update) :
  (forall yes no : value, length (build_messages_list yes no) = 2)
  /\ ~ In (ReplyText no_messages_found) (trace (fetch w u))
  /\ (forall (msg : Message) (yes no : list value),
        replies (trace (fetch (with_messages w (Returned (VList yes))
                                                (Returned (VList no)))
                              {| message := Some msg |}))
        = [join (nl ++ nl)
             (number_lines 0 (shown (member_value POSITIVE) yes
                              ++ shown (member_value NEGATIVE) no)%list)])
  /\ (forall msg : Message,
        replies (trace (fetch (with_messages w (Returned (VList []))
                                                (Returned (VList [])))
                              {| message := Some msg |}))
        = [""]).
Proof.
  split; [reflexivity|].
  split; [apply fetch_never_says_no_messages|].
  assert (forall (msg : Message) (yes no : list value),
    replies (trace (fetch (with_messages w (Returned (VList yes))
                                            (Returned (VList no)))
                          {| message := Some msg |}))
    = [join (nl ++ nl)
         (number_lines 0 (shown (member_value POSITIVE) yes
                          ++ shown (member_value NEGATIVE) no)%list)]) as H.
  { intros msg yes no.
    rewrite (@fetch_run _ (with_messages w _ _) {| message := Some msg |}
               msg yes no eq_refl eq_refl eq_refl).
    rewrite trace_pair. cbn [replies].
    rewrite !replies_app, !replies_skipped. reflexivity. }
  split; [exact H|]. intros msg. rewrite H. reflexivity.
Qed.

(** The state filters of the two [api.get_messages] calls are the values of
    [BotStates.POSITIVE] and [BotStates.NEGATIVE], in that order. *)
Lemma fetch_filters_are_member_values (w : World) (u : Update) (msg : Message)
    (yes no : list value) :
  message u = Some msg ->
  messages_yes w = Returned (VList yes) ->
  messages_no w = Returned (VList no) ->
  filters (trace (fetch w u))
  = [member_value POSITIVE; member_value NEGATIVE].
Proof.
  intros Hm Hy Hn. rewrite (fetch_run w u Hm Hy Hn), trace_pair.
  cbn [filters]. rewrite !filters_app.
  assert (forall s i items, filters (skipped s i items) = []) as Hsk.
  { intros s i items. revert i.
    induction items as [|m rest IH]; intros i; [reflexivity|].
    cbn [skipped]. destruct (conforming m); cbn [filters]; apply IH. }
  rewrite !Hsk. reflexivity.
Qed.

(** The state handed to [api.store_message] is [str()] of what the parser's
    [get_state] returned: the member's value exactly when [str()] of that
    object is the member's value. *)
Lemma store_state_is_str_of_parser_state (w : World) (u : Update)
    (t s : string) :
  In (t, s) (stores (trace (answer_if_user_responds_to_claude w u))) ->
  exists m original,
    message u = Some m /\ reply_to_message m = Some original
    /\ t = get_text_clean (process w (text original) (text m))
    /\ s = str (get_state (process w (text original) (text m))).
Proof.
  intros Hin.
  destruct (message u) as [m|] eqn:Hm.
  2:{ unfold answer_if_user_responds_to_claude in Hin. rewrite Hm in Hin.
      contradiction Hin. }
  destruct (reply_to_message m) as [original|] eqn:Hr.
  2:{ unfold answer_if_user_responds_to_claude in Hin. rewrite Hm, Hr in Hin.
      contradiction Hin. }
  exists m, original. split; [reflexivity|]. split; [exact Hr|].
  rewrite (run_on_reply w u Hm Hr) in Hin.
  destruct (reply_text w _) as [e|[]]; rewrite trace_pair in Hin.
  - rewrite stores_respond_trace in Hin. contradiction Hin.
  - destruct (store_step_trace w (process w (text original) (text m)))
      as (rest & Hrest & Hnost & _).
    rewrite Hrest, stores_app, stores_respond_trace in Hin.
    cbn [stores app] in Hin. rewrite Hnost in Hin.
    destruct Hin as [Heq|[]]. injection Heq as <- <-. split; reflexivity.
Qed.

End FetchDisplay.

(* ===================================================================== *)
(** ** The parser of the specification, behind the reply handler          *)
(* ===================================================================== *)

Section BlankReplies.

Context `{R : Rendering}.
Variable classify : string -> string -> BotStates.
Variable clean : string -> string.
Variable acknowledge : BotStates -> string -> string.

(** Rule 1 of section 4.2. *)
Lemma process_blank (prompt reply : string) :
  ParserModel.all_whitespace reply = true ->
  ParserModel.process classify clean acknowledge prompt reply
  = {| get_state := VMember UNKNOWN; get_text := ""; get_text_clean := "" |}.
Proof. intros Hb. unfold ParserModel.process. rewrite Hb. reflexivity. Qed.

(** C7 (the first half, and what the code does about the second).  For an
    empty or all-whitespace reply the parser of the specification yields
    UNKNOWN with an empty clean text and an empty response; the handler
    nevertheless hands the empty response to [reply_text] and, once that
    call has returned, hands the empty clean text to [api.store_message]. *)
Theorem blank_reply_is_still_sent_and_stored (w : World) (prompt reply : string) :
  (forall p r, process w (Some p) (Some r)
               = ParserModel.process classify clean acknowledge p r) ->
  ParserModel.all_whitespace reply = true ->
  let p := ParserModel.process classify clean acknowledge prompt reply in
  let run := answer_if_user_responds_to_claude w (reply_update prompt reply) in
  (get_state p = VMember UNKNOWN /\ get_text p = "" /\ get_text_clean p = "")
  /\ replies (trace run) = [""]
  /\ (reply_text w "" = Returned tt ->
      stores (trace run) = [("", member_str UNKNOWN)]).
Proof.
  intros Hw Hb p run. subst p run.
  rewrite (process_blank prompt reply Hb). cbn [get_state get_text get_text_clean].
  split; [repeat split|].
  rewrite (@run_on_reply _ w (reply_update prompt reply) _ _ eq_refl eq_refl).
  cbn [text]. rewrite Hw, (process_blank prompt reply Hb).
  set (p := {| get_state := VMember UNKNOWN; get_text := "";
               get_text_clean := "" |}).
  assert (replies (respond_trace w (MkMessage (Some reply)
                     (Some (MkMessage (Some prompt) None)))
                     (MkMessage (Some prompt) None)) = [""]) as Hrep.
  { rewrite replies_respond_trace. cbn [text]. rewrite Hw.
    rewrite (process_blank prompt reply Hb). reflexivity. }
  assert (stores (respond_trace w (MkMessage (Some reply)
                    (Some (MkMessage (Some prompt) None)))
                    (MkMessage (Some prompt) None)) = []) as Hst
    by apply stores_respond_trace.
  destruct (store_step_trace w p) as (rest & Hrest & Hnost & Hnorep).
  change (get_text p) with "".
  change (get_text_clean p) with "" in Hrest.
  change (str (get_state p)) with (member_str UNKNOWN) in Hrest.
  destruct (reply_text w "") as [e|[]]; rewrite trace_pair.
  - split; [exact Hrep | intros H; discriminate H].
  - rewrite Hrest, replies_app, stores_app, Hrep, Hst.
    cbn [replies stores app]. rewrite Hnost, Hnorep.
    split; [reflexivity | intros _; reflexivity].
Qed.

End BlankReplies.

(* ===================================================================== *)
(** ** The store client of the specification                              *)
(* ===================================================================== *)

Section StoreClient.

Context `{R : Rendering}.
Import MessageStoreClient.



Lemma validate_length (records : list value) :
  length (validate records) <= length records.
Proof.
  induction records as [|r rest IH]; [apply Nat.le_refl|].
  destruct r as [| | | | |entries|]; cbn [validate length]; try lia.
  destruct (assoc "text" entries); cbn [length]; lia.
Qed.

(** A fetch that returns gives at most [limit] records. *)
Lemma fetch_at_most_limit (state : BotStates) (limit : nat) (t : Transport)
    (db : Remote) (records : list StoredMessage) :
  fetch state limit t db = inr records -> length records <= limit.
Proof.
  unfold fetch. destruct (Nat.eqb limit 0).
  - intros H. injection H as <-. apply Nat.le_0_l.
  - destruct t as [|e]; [|discriminate].
    intros H. injection H as <-.
    etransitivity; [apply validate_length|].
    unfold get. apply firstn_le_length.
Qed.

(** C8.  A fetch with limit 0 gives the empty sequence for every state,
    whatever the store holds and whether or not it can be reached. *)
Theorem fetch_zero_limit_is_empty (state : BotStates) (t : Transport)
    (db : Remote) :
  fetch state 0 t db = inr [].
Proof. reflexivity. Qed.

End StoreClient.

(* ===================================================================== *)
(** ** The handlers on sample inputs                                      *)
(* ===================================================================== *)

Example reply_yes_run :
  @answer_if_user_responds_to_claude sample_rendering sample_world
    (reply_update "Do you like X?" "yes")
  = ([Log DEBUG "Latest message was a reply to prompt 'Do you like X?'";
      NewParser;
      Process (Some "Do you like X?") (Some "yes");
      ReplyText "Glad to hear it";
      StoreMessage "yes" "positive";
      Log INFO "Storage of [positive]: yes returned status=True"],
     Returned tt).
Proof. reflexivity. Qed.

Example reply_meh_run :
  @answer_if_user_responds_to_claude sample_rendering sample_world
    (reply_update "Do you like X?" "meh")
  = ([Log DEBUG "Latest message was a reply to prompt 'Do you like X?'";
      NewParser;
      Process (Some "Do you like X?") (Some "meh");
      Log DEBUG "Doing nothing. Response was not generated for user input 'meh'";
      ReplyText "";
      StoreMessage "meh" "unknown";
      Log INFO "Storage of [unknown]: meh returned status=True"],
     Returned tt).
Proof. reflexivity. Qed.

Example store_rejected_run :
  @answer_if_user_responds_to_claude sample_rendering
    (with_store sample_world (fun _ _ => Returned (VBool false)))
    (reply_update "Do you like X?" "yes")
  = ([Log DEBUG "Latest message was a reply to prompt 'Do you like X?'";
      NewParser;
      Process (Some "Do you like X?") (Some "yes");
      ReplyText "Glad to hear it";
      StoreMessage "yes" "positive";
      Log ERROR ("Failed to store [positive]: yes - POST request to store "
                 ++ "[positive]: yes did not return valid status")],
     Returned tt).
Proof. reflexivity. Qed.

Example store_timeout_run :
  @answer_if_user_responds_to_claude sample_rendering timeout_world
    (reply_update "Do you like X?" "yes")
  = ([Log DEBUG "Latest message was a reply to prompt 'Do you like X?'";
      NewParser;
      Process (Some "Do you like X?") (Some "yes");
      ReplyText "Glad to hear it";
      StoreMessage "yes" "positive"],
     Raised IndexError).
Proof. reflexivity. Qed.

Example fetch_run_sample :
  @fetch sample_rendering sample_world plain_update
  = ([GetMessages 1 "positive";
      GetMessages 1 "negative";
      Log ERROR "Skipping message_positive_1 due to invalid format: 3";
      Log ERROR "Skipping message_positive_2 due to invalid format: {...}";
      ReplyText ("Message #0:" ++ nl ++ "[positive] hi")],
     Returned tt).
Proof. reflexivity. Qed.

(** An error object returned in place of a list: one ERROR line per key,
    and the records of the other state are displayed. *)
Example fetch_on_error_object :
  errors (trace (@fetch sample_rendering error_object_world plain_update))
  = ["Skipping message_positive_0 due to invalid format: error";
     "Skipping message_positive_1 due to invalid format: code"]
  /\ replies (trace (@fetch sample_rendering error_object_world plain_update))
     = ["Message #0:" ++ nl ++ "[negative] no thanks"].
Proof. split; reflexivity. Qed.

(** Iterating over a string gives its characters, a two-byte letter being
    one of them. *)
Example chars_of_ne_acute :
  chars ne_acute
  = [VStr "n";
     VStr (String (ascii_of_nat 195) (String (ascii_of_nat 169) EmptyString))]
  /\ String.length ne_acute = 3.
Proof. split; reflexivity. Qed.

(** The state handed to the store is [str()] of the parser's state, the
    filter handed to the fetch is the member's value: on a [BotStates] that
    prints as [BotStates.NAME] the two differ. *)
Example tokens_under_plain_enum :
  stores (trace (@answer_if_user_responds_to_claude plain_enum_rendering
                   sample_world (reply_update "Do you like X?" "yes")))
  = [("yes", "BotStates.POSITIVE")]
  /\ filters (trace (@fetch plain_enum_rendering sample_world plain_update))
     = ["positive"; "negative"].
Proof. split; reflexivity. Qed.

(* ===================================================================== *)
(** ** The theorems at work on the sample collaborators                   *)
(* ===================================================================== *)

Lemma non_reply_updates_are_ignored_witness :
  (message plain_update = None
   \/ exists m, message plain_update = Some m /\ reply_to_message m = None)
  /\ parsers (trace (@answer_if_user_responds_to_claude sample_rendering
                       sample_world plain_update)) = 0
  /\ replies (trace (@answer_if_user_responds_to_claude sample_rendering
                       sample_world plain_update)) = []
  /\ stores (trace (@answer_if_user_responds_to_claude sample_rendering
                      sample_world plain_update)) = [].
Proof.
  assert (message plain_update = None
          \/ exists m, message plain_update = Some m /\ reply_to_message m = None)
    as H by (right; eexists; split; reflexivity).
  split; [exact H|].
  exact (proj2 (@non_reply_updates_are_ignored sample_rendering sample_world
                  plain_update H)).
Defined.

Lemma empty_response_is_still_replied_witness :
  get_text (process sample_world (Some "Do you like X?") (Some "meh")) = ""
  /\ replies (trace (@answer_if_user_responds_to_claude sample_rendering
                       sample_world (reply_update "Do you like X?" "meh")))
     = [""].
Proof.
  split; [reflexivity|].
  exact (proj2 (@empty_response_is_still_replied sample_rendering sample_world
                  (reply_update "Do you like X?" "meh")
                  (MkMessage (Some "meh") (Some (MkMessage (Some "Do you like X?") None)))
                  (MkMessage (Some "Do you like X?") None)
                  eq_refl eq_refl eq_refl)).
Defined.

Lemma reply_is_sent_before_store_witness :
  trace (@answer_if_user_responds_to_claude sample_rendering sample_world
           (reply_update "Do you like X?" "yes"))
  = ([Log DEBUG "Latest message was a reply to prompt 'Do you like X?'";
      NewParser;
      Process (Some "Do you like X?") (Some "yes");
      ReplyText "Glad to hear it"]
     ++ StoreMessage "yes" "positive"
     :: [Log INFO "Storage of [positive]: yes returned status=True"])%list
  /\ exists response,
       replies [Log DEBUG "Latest message was a reply to prompt 'Do you like X?'";
                NewParser;
                Process (Some "Do you like X?") (Some "yes");
                ReplyText "Glad to hear it"] = [response]
       /\ reply_text sample_world response = Returned tt.
Proof.
  split; [reflexivity|].
  destruct (@reply_is_sent_before_store sample_rendering sample_world
              (reply_update "Do you like X?" "yes")
              [Log DEBUG "Latest message was a reply to prompt 'Do you like X?'";
               NewParser;
               Process (Some "Do you like X?") (Some "yes");
               ReplyText "Glad to hear it"]
              [Log INFO "Storage of [positive]: yes returned status=True"]
              "yes" "positive" eq_refl)
    as (response & Hrep & Hsent & _).
  exists response. split; assumption.
Defined.

Lemma store_exception_without_args_escapes_witness :
  store_message timeout_world "yes" "positive"
  = Raised (Exception "TimeoutError" [])
  /\ result (@answer_if_user_responds_to_claude sample_rendering timeout_world
               (reply_update "Do you like X?" "yes"))
     = Raised IndexError
  /\ errors (trace (@answer_if_user_responds_to_claude sample_rendering
                      timeout_world (reply_update "Do you like X?" "yes")))
     = [].
Proof.
  split; [reflexivity|].
  exact (@store_exception_without_args_escapes sample_rendering timeout_world
           (reply_update "Do you like X?" "yes")
           (MkMessage (Some "yes") (Some (MkMessage (Some "Do you like X?") None)))
           (MkMessage (Some "Do you like X?") None)
           (Exception "TimeoutError" [])
           eq_refl eq_refl eq_refl eq_refl eq_refl).
Defined.


Lemma blank_reply_is_still_sent_and_stored_witness :
  (forall p r, process sample_world (Some p) (Some r)
               = ParserModel.process sample_classify (fun x => x)
                   sample_acknowledge p r)
  /\ ParserModel.all_whitespace "   " = true
  /\ replies (trace (@answer_if_user_responds_to_claude sample_rendering
                       sample_world (reply_update "Do you like X?" "   ")))
     = [""]
  /\ stores (trace (@answer_if_user_responds_to_claude sample_rendering
                      sample_world (reply_update "Do you like X?" "   ")))
     = [("", "unknown")].
Proof.
  assert (forall p r, process sample_world (Some p) (Some r)
                      = ParserModel.process sample_classify (fun x => x)
                          sample_acknowledge p r) as Hw
    by (intros p r; reflexivity).
  split; [exact Hw|]. split; [reflexivity|].
  destruct (@blank_reply_is_still_sent_and_stored sample_rendering
              sample_classify (fun x => x) sample_acknowledge
              sample_world "Do you like X?" "   " Hw eq_refl)
    as (_ & Hrep & Hst).
  split; [exact Hrep | exact (Hst eq_refl)].
Defined.



(* ===================================================================== *)
(** ** The reply handler: sending, storing and what escapes               *)
(* ===================================================================== *)

Lemma infos_app (t1 t2 : list Event) :
  infos (t1 ++ t2) = (infos t1 ++ infos t2)%list.
Proof.
  induction t1 as [|ev t1 IH]; [reflexivity|].
  destruct ev as [[] ?| | | | |]; simpl; rewrite IH; reflexivity.
Qed.

Lemma processed_app (t1 t2 : list Event) :
  processed (t1 ++ t2) = (processed t1 ++ processed t2)%list.
Proof.
  induction t1 as [|ev t1 IH]; [reflexivity|].
  destruct ev; simpl; rewrite IH; reflexivity.
Qed.

(** Logger calls are neither replies, stores, fetches nor parser calls. *)
Lemma only_logs_silent (tr : list Event) :
  only_logs tr = true ->
  replies tr = [] /\ stores tr = [] /\ filters tr = []
  /\ parsers tr = 0 /\ processed tr = [].
Proof.
  induction tr as [|ev tr IH]; [repeat split|].
  destruct ev; cbn [only_logs forallb andb]; try discriminate.
  intros H. apply IH in H. exact H.
Qed.

Lemma only_logs_app (t1 t2 : list Event) :
  only_logs (t1 ++ t2) = only_logs t1 && only_logs t2.
Proof. unfold only_logs. apply forallb_app. Qed.

Section ReplyHandlerMore.

Context `{R : Rendering}.
Variable w : World.

Lemma respond_trace_shape (m original : Message) :
  exists pre,
    respond_trace w m original
    = ((Log DEBUG ("Latest message was a reply to prompt '"
                   ++ str_opt (text original) ++ "'")
        :: NewParser :: Process (text original) (text m) :: pre)
       ++ [ReplyText (get_text (process w (text original) (text m)))])%list
    /\ only_logs pre = true /\ infos pre = [] /\ errors pre = [].
Proof.
  unfold respond_trace. destruct (negb _).
  - exists [Log DEBUG ("Doing nothing. Response was not generated for user input '"
                       ++ str_opt (text m) ++ "'")].
    repeat split.
  - exists []. repeat split.
Qed.

Lemma parsers_respond_trace (m original : Message) :
  parsers (respond_trace w m original) = 1
  /\ processed (respond_trace w m original) = [(text original, text m)]
  /\ infos (respond_trace w m original) = []
  /\ filters (respond_trace w m original) = [].
Proof.
  destruct (respond_trace_shape m original) as (pre & -> & Hlogs & Hinf & _).
  destruct (only_logs_silent pre Hlogs) as (_ & _ & Hf & Hp & Hpr).
  cbn [app parsers processed infos filters].
  rewrite parsers_app, processed_app, infos_app, filters_app, Hp, Hpr, Hinf, Hf.
  repeat split.
Qed.

(** After its one call to [api.store_message] the store step only logs. *)
Lemma store_step_then_logs (p : Parser) :
  exists rest,
    trace (store_step w p)
    = StoreMessage (get_text_clean p) (str (get_state p)) :: rest
    /\ only_logs rest = true.
Proof.
  destruct (store_message w (get_text_clean p) (str (get_state p)))
    as [e|status] eqn:Hs.
  - rewrite (store_step_raised w p Hs).
    destruct (args e); eexists; split; reflexivity.
  - destruct (truthy status) eqn:Ht.
    + rewrite (store_step_truthy w p Hs Ht). eexists; split; reflexivity.
    + rewrite (store_step_falsy w p Hs Ht). eexists; split; reflexivity.
Qed.

(** X1.  Whatever the update and whatever the collaborators do, one run of
    the reply handler constructs at most one [Parser], calls [reply_text]
    at most once and [api.store_message] at most once -- never a second
    attempt -- and never stores without having replied. *)
Theorem handler_acts_at_most_once (u : Update) :
  let tr := trace (answer_if_user_responds_to_claude w u) in
  parsers tr <= 1
  /\ length (replies tr) <= 1
  /\ length (stores tr) <= length (replies tr)
  /\ filters tr = [].
Proof.
  intros tr. subst tr.
  destruct (message u) as [m|] eqn:Hm.
  2:{ unfold answer_if_user_responds_to_claude. rewrite Hm.
      cbn -[append]. repeat split; lia. }
  destruct (reply_to_message m) as [original|] eqn:Hr.
  2:{ unfold answer_if_user_responds_to_claude. rewrite Hm, Hr.
      cbn -[append]. repeat split; lia. }
  rewrite (run_on_reply w u Hm Hr).
  destruct (parsers_respond_trace m original) as (Hp & _ & _ & Hf).
  pose proof (replies_respond_trace w m original) as Hrep.
  pose proof (stores_respond_trace w m original) as Hst.
  destruct (reply_text w _) as [e|[]]; rewrite trace_pair.
  - rewrite Hp, Hrep, Hst, Hf. cbn [length]. repeat split; lia.
  - destruct (store_step_then_logs (process w (text original) (text m)))
      as (rest & -> & Hlogs).
    destruct (only_logs_silent rest Hlogs) as (Hr' & Hs' & Hf' & Hp' & _).
    rewrite parsers_app, replies_app, stores_app, filters_app, Hp, Hrep, Hst, Hf.
    cbn [parsers replies stores filters app length].
    rewrite Hr', Hs', Hf', Hp'. cbn [length]. repeat split; lia.
Qed.

(** X2.  When [reply_text] raises, that exception leaves the handler: the
    store is never called and nothing is logged as an error for it. *)
Theorem failed_reply_skips_store (u : Update) (m original : Message) (e : exn) :
  message u = Some m ->
  reply_to_message m = Some original ->
  reply_text w (get_text (process w (text original) (text m))) = Raised e ->
  let run := answer_if_user_responds_to_claude w u in
  result run = Raised e
  /\ stores (trace run) = []
  /\ errors (trace run) = []
  /\ replies (trace run) = [get_text (process w (text original) (text m))].
Proof.
  intros Hm Hr He run. subst run.
  rewrite (run_on_reply w u Hm Hr). unfold Raised in He. rewrite He.
  rewrite trace_pair, result_pair.
  rewrite stores_respond_trace, errors_respond_trace, replies_respond_trace.
  repeat split.
Qed.

(** X3.  A status returned by [api.store_message] is judged by its
    truthiness alone: a truthy one gives one INFO line and no error, any
    falsy one ([None], [False], [0], an empty string, list or dict) gives
    one ERROR line saying that the POST did not return a valid status.
    Either way the handler returns normally. *)
Theorem returned_status_is_judged_by_truthiness (u : Update)
    (m original : Message) (status : value) :
  message u = Some m ->
  reply_to_message m = Some original ->
  let p := process w (text original) (text m) in
  reply_text w (get_text p) = Returned tt ->
  store_message w (get_text_clean p) (str (get_state p)) = Returned status ->
  let run := answer_if_user_responds_to_claude w u in
  result run = Returned tt
  /\ if truthy status
     then errors (trace run) = []
          /\ infos (trace run)
             = ["Storage of " ++ target_of p ++ " returned status=" ++ repr status]
     else errors (trace run)
          = ["Failed to store " ++ target_of p ++ " - "
             ++ ("POST request to store " ++ target_of p
                 ++ " did not return valid status")]
          /\ infos (trace run) = [].
Proof.
  intros Hm Hr p Hsend Hs run. subst run.
  rewrite (run_on_reply w u Hm Hr). fold p.
  unfold Returned in Hsend. rewrite Hsend. cbv beta iota.
  rewrite trace_pair, result_pair.
  destruct (parsers_respond_trace m original) as (_ & _ & Hinf & _).
  destruct (truthy status) eqn:Ht.
  - rewrite (store_step_truthy w p Hs Ht), trace_pair, result_pair.
    rewrite errors_app, infos_app, errors_respond_trace, Hinf.
    repeat split.
  - rewrite (store_step_falsy w p Hs Ht), trace_pair, result_pair.
    rewrite errors_app, infos_app, errors_respond_trace, Hinf.
    repeat split.
Qed.

(** X4.  An exception raised by [api.store_message] that carries at least
    one argument is swallowed: the handler returns normally and logs one
    ERROR line that ends in [str()] of the first argument; the later
    arguments and the class of the exception are not logged. *)
Theorem store_exception_is_reported_by_first_argument (u : Update)
    (m original : Message) (e : exn) (arg0 : value) (more : list value) :
  message u = Some m ->
  reply_to_message m = Some original ->
  let p := process w (text original) (text m) in
  reply_text w (get_text p) = Returned tt ->
  store_message w (get_text_clean p) (str (get_state p)) = Raised e ->
  args e = arg0 :: more ->
  let run := answer_if_user_responds_to_claude w u in
  result run = Returned tt
  /\ errors (trace run) = ["Failed to store " ++ target_of p ++ " - " ++ str arg0]
  /\ infos (trace run) = [].
Proof.
  intros Hm Hr p Hsend He Hargs run. subst run.
  rewrite (run_on_reply w u Hm Hr). fold p.
  unfold Returned in Hsend. rewrite Hsend. cbv beta iota.
  rewrite (store_step_raised w p He), Hargs.
  rewrite !trace_pair, !result_pair.
  destruct (parsers_respond_trace m original) as (_ & _ & Hinf & _).
  rewrite errors_app, infos_app, errors_respond_trace, Hinf.
  repeat split.
Qed.

(** X5.  Only two exceptions can leave the reply handler: the one
    [reply_text] raised, and the [IndexError] of [e.args[0]] on a store
    exception without arguments.  The exception [api.store_message] raised
    never leaves it as such. *)
Theorem what_leaves_the_handler (u : Update) (e : exn) :
  result (answer_if_user_responds_to_claude w u) = Raised e ->
  exists m original,
    message u = Some m /\ reply_to_message m = Some original
    /\ let p := process w (text original) (text m) in
       reply_text w (get_text p) = Raised e
       \/ (reply_text w (get_text p) = Returned tt
           /\ e = IndexError
           /\ exists e', store_message w (get_text_clean p) (str (get_state p))
                         = Raised e'
                         /\ args e' = []).
Proof.
  intros Hres.
  destruct (message u) as [m|] eqn:Hm.
  2:{ unfold answer_if_user_responds_to_claude in Hres. rewrite Hm in Hres.
      discriminate Hres. }
  destruct (reply_to_message m) as [original|] eqn:Hr.
  2:{ unfold answer_if_user_responds_to_claude in Hres. rewrite Hm, Hr in Hres.
      discriminate Hres. }
  exists m, original. split; [reflexivity|]. split; [exact Hr|].
  rewrite (run_on_reply w u Hm Hr) in Hres.
  cbv zeta.
  set (p := process w (text original) (text m)) in *.
  destruct (reply_text w (get_text p)) as [e0|[]].
  - rewrite result_pair in Hres. left. exact Hres.
  - right. split; [reflexivity|]. rewrite result_pair in Hres.
    destruct (store_message w (get_text_clean p) (str (get_state p)))
      as [e'|status] eqn:Hs.
    + rewrite (store_step_raised w p Hs) in Hres.
      destruct (args e') as [|arg0 more] eqn:Hargs;
        rewrite result_pair in Hres.
      * injection Hres as <-. split; [reflexivity|].
        exists e'. split; [reflexivity | exact Hargs].
      * discriminate Hres.
    + destruct (truthy status) eqn:Ht.
      * rewrite (store_step_truthy w p Hs Ht) in Hres. discriminate Hres.
      * rewrite (store_step_falsy w p Hs Ht) in Hres. discriminate Hres.
Qed.

(** X6.  Once [reply_text] has returned, the handler makes exactly one
    store call, and what it stores is the parser's clean text under
    [str()] of the parser's state -- not the text of the message and not
    the response that was sent. *)
Theorem stored_record_is_the_parsers (u : Update) (m original : Message) :
  message u = Some m ->
  reply_to_message m = Some original ->
  let p := process w (text original) (text m) in
  reply_text w (get_text p) = Returned tt ->
  stores (trace (answer_if_user_responds_to_claude w u))
  = [(get_text_clean p, str (get_state p))].
Proof.
  intros Hm Hr p Hsend.
  rewrite (run_on_reply w u Hm Hr). fold p.
  unfold Returned in Hsend. rewrite Hsend. cbv beta iota.
  rewrite trace_pair.
  destruct (store_step_then_logs p) as (rest & -> & Hlogs).
  destruct (only_logs_silent rest Hlogs) as (_ & Hs' & _).
  rewrite stores_app, stores_respond_trace. cbn [stores app].
  rewrite Hs'. reflexivity.
Qed.

(** X7.  On a reply the handler constructs one [Parser] and runs it once,
    on the text of the replied-to message as prompt and the text of the
    message as reply; this happens before [reply_text] is called, so also
    when that call then fails. *)
Theorem parser_runs_once_before_reply (u : Update) (m original : Message) :
  message u = Some m ->
  reply_to_message m = Some original ->
  let tr := trace (answer_if_user_responds_to_claude w u) in
  parsers tr = 1
  /\ processed tr = [(text original, text m)]
  /\ exists pre post,
       tr = (pre ++ ReplyText (get_text (process w (text original) (text m)))
                 :: post)%list
       /\ parsers pre = 1
       /\ processed pre = [(text original, text m)]
       /\ replies pre = [].
Proof.
  intros Hm Hr tr. subst tr.
  rewrite (run_on_reply w u Hm Hr).
  destruct (parsers_respond_trace m original) as (Hp & Hpr & _ & _).
  destruct (respond_trace_shape m original) as (pre & Hshape & Hlogs & _).
  destruct (only_logs_silent pre Hlogs) as (Hr0 & _ & _ & Hp0 & Hpr0).
  destruct (reply_text w _) as [e|[]]; rewrite trace_pair.
  - split; [exact Hp|]. split; [exact Hpr|].
    exists (Log DEBUG ("Latest message was a reply to prompt '"
                       ++ str_opt (text original) ++ "'")
            :: NewParser :: Process (text original) (text m) :: pre), [].
    split; [exact Hshape|].
    cbn [parsers processed replies]. rewrite Hp0, Hpr0, Hr0. repeat split.
  - destruct (store_step_then_logs (process w (text original) (text m)))
      as (rest & -> & Hlogs').
    destruct (only_logs_silent rest Hlogs') as (_ & _ & _ & Hp' & Hpr').
    rewrite parsers_app, processed_app, Hp, Hpr.
    cbn [parsers processed]. rewrite Hp', Hpr'.
    split; [reflexivity|]. split; [reflexivity|].
    exists (Log DEBUG ("Latest message was a reply to prompt '"
                       ++ str_opt (text original) ++ "'")
            :: NewParser :: Process (text original) (text m) :: pre),
           (StoreMessage
              (get_text_clean (process w (text original) (text m)))
              (str (get_state (process w (text original) (text m)))) :: rest).
    split.
    + rewrite Hshape, <- app_assoc. reflexivity.
    + cbn [parsers processed replies]. rewrite Hp0, Hpr0, Hr0. repeat split.
Qed.

End ReplyHandlerMore.

(* ===================================================================== *)
(** ** The /fetch handler: odd results, failures and numbering            *)
(* ===================================================================== *)

Lemma conforming_chars (state : string) (s : string) :
  filter conforming (chars s) = [].
Proof.
  induction s as [|c s IH]; [reflexivity|].
  cbn [chars]. destruct (is_continuation c); exact IH.
Qed.

Lemma conforming_keys (entries : list (string * value)) :
  filter conforming (map (fun kv => VStr (fst kv)) entries) = [].
Proof. induction entries as [|kv entries IH]; [reflexivity | exact IH]. Qed.

(** Only the items of a list can be displayed. *)
Lemma conforming_items_of (v : value) :
  filter conforming (items_of v) = filter conforming (records_of v).
Proof.
  destruct v; try reflexivity; cbn [items_of records_of filter].
  - apply (conforming_chars "").
  - apply conforming_keys.
Qed.

Lemma filter_split_length {A} (f : A -> bool) (l : list A) :
  length (filter (fun x => negb (f x)) l) = length l - length (filter f l).
Proof.
  induction l as [|x l IH]; [reflexivity|].
  cbn [filter]. destruct (f x); cbn [negb length].
  - exact IH.
  - rewrite IH.
    assert (length (filter f l) <= length l) by apply filter_length_le.
    lia.
Qed.

Lemma join_number_lines_empty (sep : string) (print_me : list string) (i : nat) :
  join sep (number_lines i print_me) = "" -> print_me = [].
Proof.
  destruct print_me as [|x rest]; [reflexivity|].
  cbn [number_lines join].
  destruct (number_lines (S i) rest); intros H; discriminate H.
Qed.

Lemma bind_raised {A B} (t : list Event) (e : exn) (k : A -> Run B) :
  bind (t, Raised e) k = (t, Raised e).
Proof. reflexivity. Qed.

Lemma bind_raise {A B} (e : exn) (k : A -> Run B) :
  bind (raise e) k = raise e.
Proof. reflexivity. Qed.

Section FetchMore.

Context `{R : Rendering}.
Variable w : World.

Lemma iterate_iterable (v : value) :
  iterable v = true -> iterate v = ret (items_of v).
Proof. destruct v; try discriminate; reflexivity. Qed.

Lemma iterate_not_iterable (v : value) :
  iterable v = false ->
  iterate v = raise (TypeError "object is not iterable").
Proof. destruct v; try discriminate; reflexivity. Qed.

Lemma only_logs_skipped (state : string) (items : list value) :
  forall i, only_logs (skipped state i items) = true.
Proof.
  induction items as [|m rest IH]; intros i; [reflexivity|].
  cbn [skipped]. destruct (conforming m); [apply IH|].
  cbn [only_logs forallb andb]. apply IH.
Qed.

(** The loops only log, whatever they run over and however they end. *)
Lemma only_logs_for_each_state (messages_list : list (string * value)) :
  forall print_me,
    only_logs (trace (for_each_state messages_list print_me)) = true.
Proof.
  induction messages_list as [|[state messages] rest IH]; intros print_me.
  - reflexivity.
  - cbn [for_each_state].
    destruct (iterable messages) eqn:Hit.
    + rewrite (iterate_iterable messages Hit), bind_ret, for_each_message_run.
      rewrite bind_returned, trace_pair, only_logs_app, only_logs_skipped.
      apply IH.
    + rewrite (iterate_not_iterable messages Hit). reflexivity.
Qed.

(** The handler when both calls returned something [enumerate] accepts:
    the loops run over the items, and the reply goes out if the update has
    a message to reply to. *)
Lemma fetch_run_iterable (u : Update) (yes no : value) :
  messages_yes w = Returned yes ->
  messages_no w = Returned no ->
  iterable yes = true ->
  iterable no = true ->
  let body := join (nl ++ nl)
                (number_lines 0 (shown (member_value POSITIVE) (items_of yes)
                                 ++ shown (member_value NEGATIVE) (items_of no))%list) in
  fetch w u
  = ((GetMessages 1 (member_value POSITIVE)
      :: GetMessages 1 (member_value NEGATIVE)
      :: skipped (member_value POSITIVE) 0 (items_of yes)
      ++ skipped (member_value NEGATIVE) 0 (items_of no)
      ++ match message u with Some _ => [ReplyText body] | None => [] end)%list,
     match message u with
     | Some _ => reply_text w body
     | None => Raised (AttributeError "'NoneType' object has no attribute 'reply_text'")
     end).
Proof.
  intros Hy Hn Hiy Hin body. unfold fetch, update_message_reply_text.
  rewrite Hy, Hn, !bind_call_returned.
  cbn [build_messages_list for_each_state].
  rewrite (iterate_iterable yes Hiy), bind_ret, for_each_message_run, bind_returned.
  rewrite (iterate_iterable no Hin), bind_ret, for_each_message_run, bind_returned.
  cbn [for_each_state]. unfold call, raise. autorewrite with run.
  cbn [app]. fold body.
  destruct (message u); rewrite ?trace_pair, ?result_pair;
    rewrite ?app_nil_r, <- ?app_assoc; reflexivity.
Qed.

(** X8.  The numbers in the displayed text count the displayed lines:
    line [k] of the text carries number [k], starting from 0, and there is
    one line per entry of [print_me]; records that were skipped take no
    number. *)
Theorem message_numbers_are_consecutive (print_me : list string) (k : nat)
    (line : string) :
  nth_error print_me k = Some line ->
  nth_error (number_lines 0 print_me) k
  = Some ("Message #" ++ str_nat k ++ ":" ++ nl ++ line)
  /\ length (number_lines 0 print_me) = length print_me.
Proof.
  assert (forall l i j x,
            nth_error l j = Some x ->
            nth_error (number_lines i l) j
            = Some ("Message #" ++ str_nat (i + j) ++ ":" ++ nl ++ x)) as Hnth.
  { induction l as [|y l IH]; intros i [|j] x Hx; try discriminate Hx.
    - cbn [nth_error] in Hx. injection Hx as ->.
      cbn [number_lines nth_error]. rewrite Nat.add_0_r. reflexivity.
    - cbn [number_lines nth_error] in *.
      replace (i + S j) with (S i + j) by lia. apply IH. exact Hx. }
  assert (forall l i, length (number_lines i l) = length l) as Hlen.
  { induction l as [|y l IH]; intros i; [reflexivity|].
    cbn [number_lines length]. f_equal. apply IH. }
  intros Hk. split; [apply (Hnth print_me 0 k line Hk) | apply Hlen].
Qed.

(** X9.  The handler does not guard the two [api.get_messages] calls: an
    exception raised by either leaves the handler, nothing is sent to the
    user and nothing is logged; when the first call raises, the second is
    not made. *)
Theorem fetch_propagates_api_failure (u : Update) (e : exn) :
  (messages_yes w = Raised e
   \/ exists yes, messages_yes w = Returned yes /\ messages_no w = Raised e) ->
  let run := fetch w u in
  result run = Raised e
  /\ replies (trace run) = []
  /\ errors (trace run) = []
  /\ (messages_yes w = Raised e ->
      filters (trace run) = [member_value POSITIVE]).
Proof.
  intros H run. subst run. unfold fetch.
  destruct H as [Hy | (yes & Hy & Hn)].
  - rewrite Hy, bind_call_raised. repeat split.
  - rewrite Hy, bind_call_returned, Hn, bind_call_raised.
    rewrite trace_pair, result_pair. repeat split.
    intros H. discriminate H.
Qed.

(** X10.  When a call returns something that cannot be iterated over
    ([None], a flag, a number), [enumerate] raises [TypeError]: it leaves
    the handler and nothing is sent to the user. *)
Theorem fetch_fails_on_non_iterable_result (u : Update) (yes no : value) :
  messages_yes w = Returned yes ->
  messages_no w = Returned no ->
  iterable yes && iterable no = false ->
  let run := fetch w u in
  (exists e, result run = Raised e /\ exn_class e = "TypeError")
  /\ replies (trace run) = [].
Proof.
  intros Hy Hn Hit run. subst run. unfold fetch.
  rewrite Hy, Hn, !bind_call_returned.
  cbn [build_messages_list for_each_state].
  destruct (iterable yes) eqn:Hiy.
  - cbn [andb] in Hit.
    rewrite (iterate_iterable yes Hiy), bind_ret, for_each_message_run,
      bind_returned.
    rewrite (iterate_not_iterable no Hit), bind_raise.
    unfold raise, Raised. rewrite !trace_pair, !result_pair. cbn [bind].
    rewrite !trace_pair, !result_pair.
    split; [eexists; split; reflexivity|].
    cbn [replies]. rewrite app_nil_r. apply replies_skipped.
  - rewrite (iterate_not_iterable yes Hiy), bind_raise, bind_raise.
    unfold raise. rewrite !trace_pair, !result_pair.
    split; [eexists; split; reflexivity | reflexivity].
Qed.

Lemma chars_length (s : string) : length (chars s) = code_points s.
Proof.
  induction s as [|c s IH]; [reflexivity|].
  cbn [chars code_points]. destruct (is_continuation c); cbn [length];
    rewrite IH; reflexivity.
Qed.

(** On text without multi-byte characters, characters are bytes. *)
Lemma code_points_ascii (s : string) :
  (forall c, In c (list_ascii_of_string s) -> nat_of_ascii c < 128) ->
  code_points s = String.length s.
Proof.
  induction s as [|c s IH]; intros Hascii; [reflexivity|].
  cbn [code_points String.length].
  assert (is_continuation c = false) as Hc.
  { unfold is_continuation.
    assert (nat_of_ascii c < 128) as Hlt by (apply Hascii; left; reflexivity).
    destruct (Nat.leb_spec 128 (nat_of_ascii c)); [lia | reflexivity]. }
  rewrite Hc. f_equal. apply IH.
  intros c' Hc'. apply Hascii. right. exact Hc'.
Qed.

(** The items the loop reports are the ones [undisplayed] counts. *)
Lemma undisplayed_items (v : value) :
  iterable v = true ->
  length (filter (fun m => negb (conforming m)) (items_of v)) = undisplayed v.
Proof.
  intros Hit. destruct v; try discriminate Hit; cbn [items_of undisplayed].
  - rewrite filter_split_length, (conforming_chars ""), chars_length.
    cbn [length]. lia.
  - reflexivity.
  - rewrite filter_split_length, conforming_keys, length_map.
    cbn [length]. lia.
Qed.

(** X11.  A dict or a string returned in place of a list is not rejected:
    [enumerate] runs over its keys or characters, none of which is a
    record, so nothing of it is displayed and one ERROR line is logged per
    key of the dict and per character of the string -- per character, not
    per byte: a two-byte letter counts once.  The text sent is made of the
    conforming records of the results that are lists. *)
Theorem fetch_on_any_iterable_results (u : Update) (msg : Message)
    (yes no : value) :
  message u = Some msg ->
  messages_yes w = Returned yes ->
  messages_no w = Returned no ->
  iterable yes = true ->
  iterable no = true ->
  let run := fetch w u in
  let displayed := (shown (member_value POSITIVE) (records_of yes)
                    ++ shown (member_value NEGATIVE) (records_of no))%list in
  replies (trace run) = [join (nl ++ nl) (number_lines 0 displayed)]
  /\ length (errors (trace run)) = undisplayed yes + undisplayed no
  /\ (forall s, yes = VStr s ->
        (forall c, In c (list_ascii_of_string s) -> nat_of_ascii c < 128) ->
        undisplayed yes = String.length s).
Proof.
  intros Hm Hy Hn Hiy Hin run displayed. subst run.
  rewrite (fetch_run_iterable u Hy Hn Hiy Hin), Hm, trace_pair.
  assert (forall state v, shown state (items_of v) = shown state (records_of v))
    as Hshown.
  { intros state v. unfold shown. rewrite conforming_items_of. reflexivity. }
  rewrite !Hshown. fold displayed. split; [|split].
  - cbn [replies]. rewrite !replies_app, !replies_skipped. reflexivity.
  - cbn [errors]. rewrite !errors_app, !length_app, !errors_skipped_length.
    rewrite (undisplayed_items yes Hiy), (undisplayed_items no Hin).
    cbn [errors length]. lia.
  - intros s -> Hascii. cbn [undisplayed]. apply code_points_ascii. exact Hascii.
Qed.

(** X12.  On an update that carries no message the handler still queries
    the store for both states and logs its diagnostics, and only then fails
    with [AttributeError] on [update.message.reply_text]: nothing is
    sent. *)
Theorem fetch_on_update_without_message (u : Update) (yes no : value) :
  message u = None ->
  messages_yes w = Returned yes ->
  messages_no w = Returned no ->
  iterable yes = true ->
  iterable no = true ->
  let run := fetch w u in
  result run
  = Raised (AttributeError "'NoneType' object has no attribute 'reply_text'")
  /\ replies (trace run) = []
  /\ filters (trace run) = [member_value POSITIVE; member_value NEGATIVE].
Proof.
  intros Hm Hy Hn Hiy Hin run. subst run.
  rewrite (fetch_run_iterable u Hy Hn Hiy Hin), Hm, trace_pair, result_pair.
  split; [reflexivity|].
  assert (forall s i items, filters (skipped s i items) = []) as Hsk.
  { intros s i items.
    apply (only_logs_silent _ (only_logs_skipped s items i)). }
  cbn [replies filters].
  rewrite !replies_app, !filters_app, !replies_skipped, !Hsk.
  split; reflexivity.
Qed.

Lemma fetch_reply_and_conformance (u : Update) (msg : Message)
    (yes no : list value) :
  message u = Some msg ->
  messages_yes w = Returned (VList yes) ->
  messages_no w = Returned (VList no) ->
  let displayed := (shown (member_value POSITIVE) yes
                    ++ shown (member_value NEGATIVE) no)%list in
  replies (trace (fetch w u)) = [join (nl ++ nl) (number_lines 0 displayed)]
  /\ (displayed = [] <-> forall m, In m (yes ++ no) -> conforming m = false).
Proof.
  intros Hm Hy Hn displayed.
  rewrite (fetch_run w u Hm Hy Hn), trace_pair. split.
  - cbn [replies]. rewrite !replies_app, !replies_skipped. reflexivity.
  - assert (forall state l,
              shown state l = [] <-> forall m, In m l -> conforming m = false)
      as Hnil.
    { intros state l. unfold shown. induction l as [|x l IH].
      - split; [intros _ m []|reflexivity].
      - cbn [filter]. destruct (conforming x) eqn:Hx.
        + split; [intros H; discriminate H|].
          intros H. rewrite (H x (or_introl eq_refl)) in Hx. discriminate Hx.
        + rewrite IH. split.
          * intros H m [<-|Hin]; [exact Hx | apply H; exact Hin].
          * intros H m Hin. apply H. right. exact Hin. }
    subst displayed. split.
    + intros H. apply app_eq_nil in H. destruct H as [H1 H2].
      intros m Hin. apply in_app_or in Hin. destruct Hin as [Hin|Hin].
      * apply (proj1 (Hnil _ yes) H1 m Hin).
      * apply (proj1 (Hnil _ no) H2 m Hin).
    + intros H.
      rewrite (proj2 (Hnil (member_value POSITIVE) yes)),
              (proj2 (Hnil (member_value NEGATIVE) no)); [reflexivity| |];
        intros m Hin; apply H; apply in_or_app; [right|left]; exact Hin.
Qed.

(** X13.  The text handed to [reply_text] is the empty string exactly when
    no returned record conforms -- in particular when the store holds
    nothing for either state. *)
Theorem fetch_sends_empty_text_iff_nothing_conforms (u : Update) (msg : Message)
    (yes no : list value) :
  message u = Some msg ->
  messages_yes w = Returned (VList yes) ->
  messages_no w = Returned (VList no) ->
  replies (trace (fetch w u)) = [""]
  <-> (forall m, In m (yes ++ no) -> conforming m = false).
Proof.
  intros Hm Hy Hn.
  destruct (fetch_reply_and_conformance u Hm Hy Hn) as [Hrep Hnil].
  rewrite Hrep. split.
  - intros H. injection H as H. apply join_number_lines_empty in H.
    apply Hnil. exact H.
  - intros H. apply Hnil in H. rewrite H. reflexivity.
Qed.

End FetchMore.

Section FetchFrame.

Context `{R : Rendering}.
Variable w : World.

(** X14.  Whatever the store returns and however the run ends, the /fetch
    handler only reads: it never calls [api.store_message], never
    constructs or runs a [Parser], queries the store at most twice and
    sends at most one message. *)
Theorem fetch_only_reads (u : Update) :
  let tr := trace (fetch w u) in
  stores tr = []
  /\ parsers tr = 0
  /\ processed tr = []
  /\ length (filters tr) <= 2
  /\ length (replies tr) <= 1.
Proof.
  intros tr. subst tr. unfold fetch.
  destruct (messages_yes w) as [e|yes].
  { rewrite bind_call_raised, trace_pair. cbn. repeat split; lia. }
  change (@inr exn value yes) with (Returned yes). rewrite bind_call_returned.
  destruct (messages_no w) as [e|no].
  { rewrite bind_call_raised, !trace_pair. cbn. repeat split; lia. }
  change (@inr exn value no) with (Returned no). rewrite bind_call_returned.
  cbn [build_messages_list]. cbv beta iota. rewrite !trace_pair.
  pose proof (only_logs_for_each_state
                [(member_value POSITIVE, yes); (member_value NEGATIVE, no)] [])
    as Hlogs.
  destruct (for_each_state _ _) as [t [e|print_me]]; rewrite trace_pair in Hlogs;
    destruct (only_logs_silent t Hlogs) as (Hr & Hs & Hf & Hp & Hpr).
  - cbn [bind]. rewrite trace_pair.
    cbn [stores parsers processed filters replies length].
    rewrite Hr, Hs, Hf, Hp, Hpr. cbn [length]. repeat split; lia.
  - change (@inr exn (list string) print_me) with (Returned print_me).
    rewrite bind_returned, trace_pair.
    cbn [stores parsers processed filters replies].
    rewrite stores_app, parsers_app, processed_app, filters_app, replies_app.
    rewrite Hr, Hs, Hf, Hp, Hpr.
    unfold update_message_reply_text, call, raise.
    destruct (message u); rewrite trace_pair; cbn; repeat split; lia.
Qed.

End FetchFrame.

(* ===================================================================== *)
(** ** The health check, the health endpoint and /ping                    *)
(* ===================================================================== *)

Lemma sys_bind_call_returned {A B} (ev : SysEvent) (a : A) (k : A -> SysRun B) :
  sys_bind (sys_call ev (Returned a)) k
  = (ev :: sys_trace (k a), sys_result (k a)).
Proof.
  unfold sys_bind, sys_call, Returned, sys_trace, sys_result.
  destruct (k a); reflexivity.
Qed.

Lemma sys_bind_returned {A B} (t : list SysEvent) (a : A) (k : A -> SysRun B) :
  sys_bind (t, Returned a) k
  = ((t ++ sys_trace (k a))%list, sys_result (k a)).
Proof.
  unfold sys_bind, Returned, sys_trace, sys_result.
  destruct (k a); reflexivity.
Qed.

Lemma sys_bind_raised {A B} (t : list SysEvent) (e : exn) (k : A -> SysRun B) :
  sys_bind (t, Raised e) k = (t, Raised e).
Proof. reflexivity. Qed.

Lemma sys_trace_pair {A} (t : list SysEvent) (r : outcome A) :
  sys_trace (t, r) = t.
Proof. reflexivity. Qed.

Lemma sys_result_pair {A} (t : list SysEvent) (r : outcome A) :
  sys_result (t, r) = r.
Proof. reflexivity. Qed.

Lemma bot_events_app (t1 t2 : list SysEvent) :
  bot_events (t1 ++ t2) = (bot_events t1 ++ bot_events t2)%list.
Proof.
  induction t1 as [|ev t1 IH]; [reflexivity|].
  destruct ev; simpl; rewrite IH; reflexivity.
Qed.

Lemma gets_app (t1 t2 : list SysEvent) :
  gets (t1 ++ t2) = (gets t1 ++ gets t2)%list.
Proof.
  induction t1 as [|ev t1 IH]; [reflexivity|].
  destruct ev; simpl; rewrite IH; reflexivity.
Qed.

Lemma bot_events_lift (tr : list Event) : bot_events (map Bot tr) = tr.
Proof. induction tr as [|ev tr IH]; [reflexivity|]. simpl. rewrite IH. reflexivity. Qed.

Lemma gets_lift (tr : list Event) : gets (map Bot tr) = [].
Proof. induction tr as [|ev tr IH]; [reflexivity | exact IH]. Qed.

Section HealthFacts.

Context `{R : Rendering}.
Variable API_ENDPOINT : string.
Variable requests_get : string -> nat -> outcome requests.Response.
Variable str_exn : exn -> string.

Local Open Scope sys_scope.

(** The two ways the health check runs. *)
Lemma health_check_run :
  let url := API_ENDPOINT ++ "/health" in
  health_check API_ENDPOINT requests_get str_exn
  = match requests_get url 5 with
    | inr response =>
        ([Bot (Log INFO ("Checking API health at: " ++ url));
          RequestsGet url 5;
          Bot (Log INFO ("API Response: "
                         ++ str_nat (requests.status_code response)
                         ++ " - " ++ requests.text response));
          Bot (Log INFO ("Health check result: "
                         ++ str (healthy_result API_ENDPOINT response)))],
         Returned (healthy_result API_ENDPOINT response))
    | inl e =>
        ([Bot (Log INFO ("Checking API health at: " ++ url));
          RequestsGet url 5;
          RootLog ERROR ("Health check failed: " ++ str_exn e)],
         Returned (unhealthy_result API_ENDPOINT str_exn e))
    end.
Proof.
  intros url. unfold health_check, logger_info. fold url.
  rewrite sys_bind_call_returned.
  destruct (requests_get url 5) as [e|response]; reflexivity.
Qed.

(** X15.  [health_check] never raises, whatever [requests.get] does: it
    makes one GET to [API_ENDPOINT/health] with a timeout of 5 and always
    returns a dict that has the endpoint under ['api_endpoint'] and either
    ['healthy'] or ['unhealthy'] under ['status']. *)
Theorem health_check_never_raises :
  let run := health_check API_ENDPOINT requests_get str_exn in
  exists d,
    sys_result run = Returned (VDict d)
    /\ gets (sys_trace run) = [(API_ENDPOINT ++ "/health", 5)]
    /\ assoc "api_endpoint" d = Some (VStr API_ENDPOINT)
    /\ (assoc "status" d = Some (VStr "healthy")
        \/ assoc "status" d = Some (VStr "unhealthy")).
Proof.
  intros run. subst run. rewrite health_check_run.
  destruct (requests_get _ 5) as [e|response]; eexists;
    rewrite sys_result_pair, sys_trace_pair;
    (split; [reflexivity|]); (split; [reflexivity|]);
    (split; [reflexivity|]); [right|left]; reflexivity.
Qed.

(** X16.  ['healthy'] only means that the request returned: the status is
    ['healthy'] for every status code of the answer, and whether the API
    answered 200 shows in ['api_connected'] alone.  The status is
    ['unhealthy'] exactly when [requests.get] raised. *)
Theorem healthy_means_the_request_returned :
  let run := health_check API_ENDPOINT requests_get str_exn in
  let outcome_of_get := requests_get (API_ENDPOINT ++ "/health") 5 in
  exists d,
    sys_result run = Returned (VDict d)
    /\ (assoc "status" d = Some (VStr "healthy")
        <-> exists response, outcome_of_get = Returned response)
    /\ (assoc "status" d = Some (VStr "unhealthy")
        <-> exists e, outcome_of_get = Raised e)
    /\ (assoc "api_connected" d = Some (VBool true)
        <-> exists response,
              outcome_of_get = Returned response
              /\ requests.status_code response = 200).
Proof.
  intros run outcome_of_get. subst run outcome_of_get.
  rewrite health_check_run.
  destruct (requests_get _ 5) as [e|response]; eexists;
    rewrite sys_result_pair; (split; [reflexivity|]).
  - split; [|split]; split; cbn.
    + intros H. discriminate H.
    + intros [response H]. discriminate H.
    + intros _. exists e. reflexivity.
    + reflexivity.
    + intros H. discriminate H.
    + intros (response & H & _). discriminate H.
  - split; [|split]; split; cbn.
    + intros _. exists response. reflexivity.
    + reflexivity.
    + intros H. discriminate H.
    + intros [e H]. discriminate H.
    + intros H. injection H as H. apply Nat.eqb_eq in H.
      exists response. split; [reflexivity | exact H].
    + intros (r & Hr & Hc). injection Hr as <-.
      apply Nat.eqb_eq in Hc. rewrite Hc. reflexivity.
Qed.

(** X17.  The keys of the result depend on how the request ended.  After a
    failure the dict holds ['status'], ['error'] (the text [str(e)]) and
    ['api_endpoint'] only, so reading ['api_connected'] from it raises
    [KeyError]; the failure is logged on the root logger, not on the bot's
    own.  After an answer it holds no ['error']. *)
Theorem health_result_keys :
  let run := health_check API_ENDPOINT requests_get str_exn in
  exists d,
    sys_result run = Returned (VDict d)
    /\ match requests_get (API_ENDPOINT ++ "/health") 5 with
       | inl e =>
           map fst d = ["status"; "error"; "api_endpoint"]
           /\ assoc "error" d = Some (VStr (str_exn e))
           /\ result (getitem (VDict d) "api_connected")
              = Raised (KeyError "api_connected")
           /\ errors (bot_events (sys_trace run)) = []
           /\ In (RootLog ERROR ("Health check failed: " ++ str_exn e))
                 (sys_trace run)
       | inr response =>
           map fst d = ["status"; "api_connected"; "api_endpoint";
                        "api_status_code"; "api_response"]
           /\ assoc "api_status_code" d
              = Some (VInt (requests.status_code response))
           /\ assoc "api_response" d = Some (VStr (requests.text response))
           /\ result (getitem (VDict d) "error") = Raised (KeyError "error")
       end.
Proof.
  intros run. subst run. rewrite health_check_run.
  destruct (requests_get _ 5) as [e|response]; eexists;
    rewrite sys_result_pair, ?sys_trace_pair; (split; [reflexivity|]).
  - repeat split. right. right. left. reflexivity.
  - repeat split.
Qed.

(** X18.  The health endpoint never raises and answers with the dict of
    the health check as body.  Its HTTP status is 200 whenever the request
    to the API returned -- also when the API itself answered with an error
    status -- and 500 exactly when the request raised. *)
Theorem handle_health_status :
  let run := handle_health API_ENDPOINT requests_get str_exn in
  let outcome_of_get := requests_get (API_ENDPOINT ++ "/health") 5 in
  exists response,
    sys_result run = Returned response
    /\ web.body response = health_of API_ENDPOINT str_exn outcome_of_get
    /\ (web.status response = 200
        <-> exists answer, outcome_of_get = Returned answer)
    /\ (web.status response = 500 <-> exists e, outcome_of_get = Raised e).
Proof.
  intros run outcome_of_get. subst run outcome_of_get.
  unfold handle_health. rewrite health_check_run.
  destruct (requests_get _ 5) as [e|answer]; rewrite sys_bind_returned;
    eexists; rewrite sys_result_pair; (split; [reflexivity|]);
    (split; [reflexivity|]); cbn; split; split.
  - intros H. discriminate H.
  - intros [answer H]. discriminate H.
  - intros _. exists e. reflexivity.
  - reflexivity.
  - intros _. exists answer. reflexivity.
  - reflexivity.
  - intros H. discriminate H.
  - intros [e H]. discriminate H.
Qed.

Variable w : World.

(** X19.  /ping runs the health check and then sends one message, ["pong!
    connection to server is healthy"] when the request to the API returned
    (whatever its status code) and ["... unhealthy"] when it raised.  It
    ends the way [reply_text] ends and never touches the store. *)
Theorem ping_reports_health (u : Update) (msg : Message) :
  message u = Some msg ->
  let run := ping API_ENDPOINT requests_get str_exn w u in
  let pong := "pong! connection to server is "
              ++ health_word (requests_get (API_ENDPOINT ++ "/health") 5) in
  replies (bot_events (sys_trace run)) = [pong]
  /\ sys_result run = reply_text w pong
  /\ stores (bot_events (sys_trace run)) = []
  /\ gets (sys_trace run) = [(API_ENDPOINT ++ "/health", 5)].
Proof.
  intros Hm run pong. subst run pong.
  unfold ping, update_message_reply_text. rewrite Hm, health_check_run.
  destruct (requests_get _ 5) as [e|answer]; rewrite sys_bind_returned;
    cbn; repeat split.
Qed.

(** X23.  /ping and the health endpoint agree: for the same outcome of the
    request to the API, /ping says ["healthy"] exactly when the endpoint
    answers with HTTP status 200. *)
Theorem ping_agrees_with_health_endpoint (u : Update) (msg : Message) :
  message u = Some msg ->
  exists response,
    sys_result (handle_health API_ENDPOINT requests_get str_exn)
    = Returned response
    /\ replies (bot_events (sys_trace
          (ping API_ENDPOINT requests_get str_exn w u)))
       = ["pong! connection to server is "
          ++ (if Nat.eqb (web.status response) 200
              then "healthy" else "unhealthy")].
Proof.
  intros Hm.
  unfold handle_health, ping, update_message_reply_text.
  rewrite Hm, health_check_run.
  destruct (requests_get _ 5) as [e|answer]; rewrite !sys_bind_returned;
    eexists; rewrite sys_result_pair; split; reflexivity.
Qed.

End HealthFacts.

(* ===================================================================== *)
(** ** The bootstrap                                                      *)
(* ===================================================================== *)

Section BootstrapFacts.

Variable b : Boot.

(** X20.  Without a token -- [TELEGRAM_TOKEN] unset, or set to the empty
    string -- [main] logs one error on the root logger and returns:
    no application is built, no handler is registered, the health server
    is not started and the bot does not poll. *)
Theorem main_without_token_does_nothing :
  (TELEGRAM_TOKEN b = None \/ TELEGRAM_TOKEN b = Some "") ->
  let run := main b in
  sys_trace run = [RootLog ERROR "No TELEGRAM_TOKEN provided"]
  /\ sys_result run = Returned tt
  /\ builds (sys_trace run) = []
  /\ handlers_added (sys_trace run) = []
  /\ polls (sys_trace run) = false.
Proof.
  intros [H|H] run; subst run; unfold main; rewrite H; repeat split.
Qed.

(** X21.  The bot polls only after everything before it went through: a
    non-empty token was found, the application was built with it, the four
    commands and the handler for text that is not a command were
    registered, and the health server was set up and started on its port.
    [main] then ends the way [run_polling] ends. *)
Theorem polling_comes_last :
  polls (sys_trace (main b)) = true ->
  exists token,
    TELEGRAM_TOKEN b = Some token
    /\ token <> ""
    /\ build b token = Returned tt
    /\ runner_setup b = Returned tt
    /\ site_start b = Returned tt
    /\ builds (sys_trace (main b)) = [token]
    /\ handlers_added (sys_trace (main b))
       = [CommandHandler "start" cb_start;
          CommandHandler "help" cb_help;
          CommandHandler "ping" cb_ping;
          CommandHandler "fetch" cb_fetch;
          MessageHandler_TEXT_not_COMMAND cb_answer_if_user_responds_to_claude]
    /\ sys_result (main b) = run_polling b.
Proof.
  unfold main, start_health_server.
  destruct (TELEGRAM_TOKEN b) as [[|c s]|];
    try (cbn [sys_trace fst polls existsb orb]; intros H; discriminate H).
  destruct (build b (String c s)) as [e|[]] eqn:Hbuild;
    [cbn [sys_bind sys_call sys_trace fst polls existsb orb];
     intros H; discriminate H|].
  destruct (runner_setup b) as [e|[]] eqn:Hsetup;
    [cbn [sys_bind sys_call sys_trace fst polls existsb orb app];
     intros H; discriminate H|].
  destruct (site_start b) as [e|[]] eqn:Hstart;
    [cbn [sys_bind sys_call sys_trace fst polls existsb orb app];
     intros H; discriminate H|].
  intros _. exists (String c s).
  split; [reflexivity|]. split; [discriminate|].
  split; [exact Hbuild|]. split; [reflexivity|]. split; [reflexivity|].
  destruct (run_polling b) as [e|[]]; repeat split.
Qed.

(** X22.  When the health server cannot be set up or started (the port is
    taken, say), the exception leaves [main] and the bot never polls, even
    though the application was built and its handlers registered. *)
Theorem health_server_failure_stops_the_bot (token : string) (e : exn) :
  TELEGRAM_TOKEN b = Some token ->
  token <> "" ->
  build b token = Returned tt ->
  (runner_setup b = Raised e
   \/ (runner_setup b = Returned tt /\ site_start b = Raised e)) ->
  sys_result (main b) = Raised e
  /\ polls (sys_trace (main b)) = false
  /\ length (handlers_added (sys_trace (main b))) = 5.
Proof.
  intros Ht Hne Hb Hfail. unfold main, start_health_server. rewrite Ht.
  destruct token as [|c s]; [contradiction Hne; reflexivity|].
  rewrite Hb.
  destruct Hfail as [Hs | [Hs Hst]]; rewrite Hs; [|rewrite Hst]; repeat split.
Qed.

End BootstrapFacts.

(* ===================================================================== *)
(** ** The further theorems at work on the sample surroundings            *)
(* ===================================================================== *)

Lemma failed_reply_skips_store_witness :
  reply_text strict_telegram_world
    (get_text (process strict_telegram_world (Some "Do you like X?") (Some "meh")))
  = Raised BadRequest
  /\ result (@answer_if_user_responds_to_claude sample_rendering
               strict_telegram_world (reply_update "Do you like X?" "meh"))
     = Raised BadRequest
  /\ stores (trace (@answer_if_user_responds_to_claude sample_rendering
                      strict_telegram_world (reply_update "Do you like X?" "meh")))
     = [].
Proof.
  split; [reflexivity|].
  destruct (@failed_reply_skips_store sample_rendering strict_telegram_world
              (reply_update "Do you like X?" "meh")
              (MkMessage (Some "meh") (Some (MkMessage (Some "Do you like X?") None)))
              (MkMessage (Some "Do you like X?") None)
              BadRequest eq_refl eq_refl eq_refl)
    as (Hres & Hst & _).
  split; assumption.
Defined.

Lemma returned_status_is_judged_by_truthiness_witness :
  store_message (with_store sample_world (fun _ _ => Returned (VList [])))
    "yes" "positive" = Returned (VList [])
  /\ result (@answer_if_user_responds_to_claude sample_rendering
               (with_store sample_world (fun _ _ => Returned (VList [])))
               (reply_update "Do you like X?" "yes"))
     = Returned tt
  /\ length (errors (trace (@answer_if_user_responds_to_claude sample_rendering
               (with_store sample_world (fun _ _ => Returned (VList [])))
               (reply_update "Do you like X?" "yes")))) = 1.
Proof.
  split; [reflexivity|].
  destruct (@returned_status_is_judged_by_truthiness sample_rendering
              (with_store sample_world (fun _ _ => Returned (VList [])))
              (reply_update "Do you like X?" "yes")
              (MkMessage (Some "yes") (Some (MkMessage (Some "Do you like X?") None)))
              (MkMessage (Some "Do you like X?") None)
              (VList []) eq_refl eq_refl eq_refl eq_refl)
    as (Hres & Herr & _).
  split; [exact Hres|]. rewrite Herr. reflexivity.
Defined.

Lemma store_exception_is_reported_by_first_argument_witness :
  store_message refusing_store_world "yes" "positive"
  = Raised (Exception "ConnectionError" [VStr "connection refused"; VInt 111])
  /\ result (@answer_if_user_responds_to_claude sample_rendering
               refusing_store_world (reply_update "Do you like X?" "yes"))
     = Returned tt
  /\ errors (trace (@answer_if_user_responds_to_claude sample_rendering
                      refusing_store_world (reply_update "Do you like X?" "yes")))
     = ["Failed to store [positive]: yes - connection refused"].
Proof.
  split; [reflexivity|].
  destruct (@store_exception_is_reported_by_first_argument sample_rendering
              refusing_store_world (reply_update "Do you like X?" "yes")
              (MkMessage (Some "yes") (Some (MkMessage (Some "Do you like X?") None)))
              (MkMessage (Some "Do you like X?") None)
              (Exception "ConnectionError" [VStr "connection refused"; VInt 111])
              (VStr "connection refused") [VInt 111]
              eq_refl eq_refl eq_refl eq_refl eq_refl)
    as (Hres & Herr & _).
  split; [exact Hres | exact Herr].
Defined.

Lemma what_leaves_the_handler_witness :
  result (@answer_if_user_responds_to_claude sample_rendering timeout_world
            (reply_update "Do you like X?" "yes"))
  = Raised IndexError
  /\ exists m original,
       message (reply_update "Do you like X?" "yes") = Some m
       /\ reply_to_message m = Some original.
Proof.
  split; [reflexivity|].
  destruct (@what_leaves_the_handler sample_rendering timeout_world
              (reply_update "Do you like X?" "yes") IndexError eq_refl)
    as (m & original & Hm & Hr & _).
  exists m, original. split; assumption.
Defined.

Lemma stored_record_is_the_parsers_witness :
  reply_text sample_world
    (get_text (process sample_world (Some "Do you like X?") (Some "yes")))
  = Returned tt
  /\ stores (trace (@answer_if_user_responds_to_claude sample_rendering
                      sample_world (reply_update "Do you like X?" "yes")))
     = [("yes", "positive")].
Proof.
  split; [reflexivity|].
  exact (@stored_record_is_the_parsers sample_rendering sample_world
           (reply_update "Do you like X?" "yes")
           (MkMessage (Some "yes") (Some (MkMessage (Some "Do you like X?") None)))
           (MkMessage (Some "Do you like X?") None)
           eq_refl eq_refl eq_refl).
Defined.

Lemma parser_runs_once_before_reply_witness :
  message (reply_update "Do you like X?" "yes")
  = Some (MkMessage (Some "yes") (Some (MkMessage (Some "Do you like X?") None)))
  /\ parsers (trace (@answer_if_user_responds_to_claude sample_rendering
                       strict_telegram_world (reply_update "Do you like X?" "yes")))
     = 1
  /\ processed (trace (@answer_if_user_responds_to_claude sample_rendering
                         strict_telegram_world (reply_update "Do you like X?" "yes")))
     = [(Some "Do you like X?", Some "yes")].
Proof.
  split; [reflexivity|].
  destruct (@parser_runs_once_before_reply sample_rendering strict_telegram_world
              (reply_update "Do you like X?" "yes")
              (MkMessage (Some "yes") (Some (MkMessage (Some "Do you like X?") None)))
              (MkMessage (Some "Do you like X?") None)
              eq_refl eq_refl)
    as (Hp & Hpr & _).
  split; assumption.
Defined.

Lemma message_numbers_are_consecutive_witness :
  nth_error ["[positive] hi"; "[negative] no"] 1 = Some "[negative] no"
  /\ nth_error (number_lines 0 ["[positive] hi"; "[negative] no"]) 1
     = Some ("Message #" ++ str_nat 1 ++ ":" ++ nl ++ "[negative] no").
Proof.
  split; [reflexivity|].
  exact (proj1 (@message_numbers_are_consecutive
                  ["[positive] hi"; "[negative] no"] 1 "[negative] no" eq_refl)).
Defined.

Lemma fetch_propagates_api_failure_witness :
  messages_yes failing_api_world = Raised api_failure
  /\ result (@fetch sample_rendering failing_api_world plain_update)
     = Raised api_failure
  /\ replies (trace (@fetch sample_rendering failing_api_world plain_update)) = [].
Proof.
  split; [reflexivity|].
  destruct (@fetch_propagates_api_failure sample_rendering failing_api_world
              plain_update api_failure (or_introl eq_refl))
    as (Hres & Hrep & _).
  split; assumption.
Defined.

Lemma fetch_fails_on_non_iterable_result_witness :
  messages_yes none_result_world = Returned VNone
  /\ iterable VNone && iterable (VList []) = false
  /\ (exists e, result (@fetch sample_rendering none_result_world plain_update)
                = Raised e
                /\ exn_class e = "TypeError")
  /\ replies (trace (@fetch sample_rendering none_result_world plain_update)) = [].
Proof.
  split; [reflexivity|]. split; [reflexivity|].
  exact (@fetch_fails_on_non_iterable_result sample_rendering none_result_world
           plain_update VNone (VList []) eq_refl eq_refl eq_refl).
Defined.

Lemma fetch_on_any_iterable_results_witness :
  messages_yes text_result_world = Returned (VStr ne_acute)
  /\ String.length ne_acute = 3
  /\ replies (trace (@fetch sample_rendering text_result_world plain_update))
     = ["Message #0:" ++ nl ++ "[negative] no thanks"]
  /\ length (errors (trace (@fetch sample_rendering text_result_world
                              plain_update))) = 2.
Proof.
  split; [reflexivity|]. split; [reflexivity|].
  destruct (@fetch_on_any_iterable_results sample_rendering text_result_world
              plain_update (MkMessage (Some "hello") None)
              (VStr ne_acute)
              (VList [VDict [("text", VStr "no thanks")]])
              eq_refl eq_refl eq_refl eq_refl eq_refl)
    as (Hrep & Herr & _).
  split; [exact Hrep | exact Herr].
Defined.

Lemma fetch_on_update_without_message_witness :
  message update_without_message = None
  /\ result (@fetch sample_rendering sample_world update_without_message)
     = Raised (AttributeError "'NoneType' object has no attribute 'reply_text'")
  /\ replies (trace (@fetch sample_rendering sample_world update_without_message))
     = [].
Proof.
  split; [reflexivity|].
  destruct (@fetch_on_update_without_message sample_rendering sample_world
              update_without_message
              (VList [VDict [("text", VStr "hi")]; VInt 3; VDict [("id", VInt 1)]])
              (VList []) eq_refl eq_refl eq_refl eq_refl eq_refl)
    as (Hres & Hrep & _).
  split; assumption.
Defined.

Lemma fetch_sends_empty_text_iff_nothing_conforms_witness :
  messages_yes strict_telegram_world = Returned (VList [])
  /\ messages_no strict_telegram_world = Returned (VList [])
  /\ replies (trace (@fetch sample_rendering strict_telegram_world plain_update))
     = [""].
Proof.
  split; [reflexivity|]. split; [reflexivity|].
  apply (proj2 (@fetch_sends_empty_text_iff_nothing_conforms sample_rendering
                  strict_telegram_world plain_update
                  (MkMessage (Some "hello") None) [] []
                  eq_refl eq_refl eq_refl)).
  intros m [].
Defined.

Lemma ping_reports_health_witness :
  message plain_update = Some (MkMessage (Some "hello") None)
  /\ replies (bot_events (sys_trace
       (@ping sample_rendering "http://localhost" api_503 sample_str_exn
          sample_world plain_update)))
     = ["pong! connection to server is healthy"].
Proof.
  split; [reflexivity|].
  exact (proj1 (@ping_reports_health sample_rendering "http://localhost" api_503
                  sample_str_exn sample_world plain_update
                  (MkMessage (Some "hello") None) eq_refl)).
Defined.

Lemma main_without_token_does_nothing_witness :
  (TELEGRAM_TOKEN no_token_boot = None \/ TELEGRAM_TOKEN no_token_boot = Some "")
  /\ sys_trace (main no_token_boot) = [RootLog ERROR "No TELEGRAM_TOKEN provided"].
Proof.
  assert (TELEGRAM_TOKEN no_token_boot = None
          \/ TELEGRAM_TOKEN no_token_boot = Some "") as H
    by (right; reflexivity).
  split; [exact H|].
  exact (proj1 (main_without_token_does_nothing no_token_boot H)).
Defined.

Lemma polling_comes_last_witness :
  polls (sys_trace (main good_boot)) = true
  /\ exists token,
       TELEGRAM_TOKEN good_boot = Some token
       /\ builds (sys_trace (main good_boot)) = [token].
Proof.
  split; [reflexivity|].
  destruct (polling_comes_last good_boot eq_refl)
    as (token & Ht & _ & _ & _ & _ & Hb & _).
  exists token. split; assumption.
Defined.

Lemma health_server_failure_stops_the_bot_witness :
  site_start port_taken_boot
  = Raised (Exception "OSError" [VInt 98; VStr "address already in use"])
  /\ sys_result (main port_taken_boot)
     = Raised (Exception "OSError" [VInt 98; VStr "address already in use"])
  /\ polls (sys_trace (main port_taken_boot)) = false.
Proof.
  split; [reflexivity|].
  destruct (@health_server_failure_stops_the_bot port_taken_boot "123:abc"
              (Exception "OSError" [VInt 98; VStr "address already in use"])
              eq_refl ltac:(discriminate) eq_refl
              (or_intror (conj eq_refl eq_refl)))
    as (Hres & Hpoll & _).
  split; assumption.
Defined.

Lemma ping_agrees_with_health_endpoint_witness :
  message plain_update = Some (MkMessage (Some "hello") None)
  /\ exists response,
       sys_result (@handle_health sample_rendering "http://localhost" api_down
                     sample_str_exn)
       = Returned response
       /\ web.status response = 500
       /\ replies (bot_events (sys_trace
             (@ping sample_rendering "http://localhost" api_down sample_str_exn
                sample_world plain_update)))
          = ["pong! connection to server is unhealthy"].
Proof.
  split; [reflexivity|].
  destruct (@ping_agrees_with_health_endpoint sample_rendering "http://localhost"
              api_down sample_str_exn sample_world plain_update
              (MkMessage (Some "hello") None) eq_refl)
    as (response & Hres & Hrep).
  exists response. split; [exact Hres|].
  assert (web.status response = 500) as Hst.
  { change (sys_result (@handle_health sample_rendering "http://localhost"
                          api_down sample_str_exn))
      with (@Returned web.Response
              (web.json_response
                 (unhealthy_result "http://localhost" sample_str_exn
                    (Exception "ConnectionError" [VStr "connection refused"]))
                 500)) in Hres.
    injection Hres as <-. reflexivity. }
  split; [exact Hst|]. rewrite Hrep, Hst. reflexivity.
Defined.
